(** * PSU telemetry adapter of the Celestica E1031 platform

    A shallow embedding of [sonic_platform/psu.py] (class [Psu]) and of
    the Python and POSIX primitives it calls, followed by the properties
    of the accessors.

    Conventions.
    - A Python [str] is a [string]; a character is the code point
      0..255 it denotes.
    - A Python [float] is an IEEE 754 binary64 value, a [spec_float]
      used at precision 53 and maximal exponent 1024.
    - A method is a computation over the object's fields that reads a
      file system and either returns a value or raises. *)

From Stdlib Require Import ZArith List String Ascii Bool Lia Permutation.
From Stdlib Require Import DecimalString SpecFloat.
Import ListNotations.

Local Open Scope string_scope.
Local Open Scope Z_scope.

(** ** Python builtins used by the module *)

Module Py.

Inductive exn : Type :=
| ValueError
| KeyError
| IndexError
| AttributeError.

Inductive result (A : Type) : Type :=
| Ok (a : A)
| Raise (e : exn).
Arguments Ok {A} a.
Arguments Raise {A} e.

Definition code (c : ascii) : Z := Z.of_nat (nat_of_ascii c).

(** [s.startswith(p)] *)
Definition startswith (s p : string) : bool := String.prefix p s.

(** [s.endswith(c)] for a one-character [c] *)
Fixpoint endswith_char (s : string) (c : ascii) : bool :=
  match s with
  | EmptyString => false
  | String a EmptyString => Ascii.eqb a c
  | String _ r => endswith_char r c
  end.

(** [sub in s] *)
Fixpoint str_in (sub s : string) : bool :=
  String.prefix sub s
  || match s with
     | EmptyString => false
     | String _ r => str_in sub r
     end.

(** [c.isdigit()]: the decimal digits and, among the code points
    below 256, the superscripts two, three and one. *)
Definition isdigit (c : ascii) : bool :=
  let n := code c in
  ((48 <=? n) && (n <=? 57)) || (n =? 178) || (n =? 179) || (n =? 185).

(** [''.join(list(filter(f, s)))] *)
Fixpoint filter_join (f : ascii -> bool) (s : string) : string :=
  match s with
  | EmptyString => EmptyString
  | String c r => if f c then String c (filter_join f r) else filter_join f r
  end.

(** [str(n)] for an integer, as [str.format] renders it in a
    replacement field. *)
Definition str_of_int (n : Z) : string := NilZero.string_of_int (Z.to_int n).

(** White space as [int] and [float] strip it from the two ends of a
    text: the ASCII white space and, among the other code points below
    256, the next-line and no-break-space characters. *)
Definition isspace (c : ascii) : bool :=
  let n := code c in
  ((9 <=? n) && (n <=? 13)) || (n =? 32) || (n =? 133) || (n =? 160).

Fixpoint lstrip (s : string) : string :=
  match s with
  | EmptyString => EmptyString
  | String c r => if isspace c then lstrip r else s
  end.

Fixpoint rstrip (s : string) : string :=
  match s with
  | EmptyString => EmptyString
  | String c r =>
      match rstrip r with
      | EmptyString => if isspace c then EmptyString else String c EmptyString
      | r' => String c r'
      end
  end.

Definition strip (s : string) : string := rstrip (lstrip s).

Definition is_decimal (c : ascii) : bool :=
  let n := code c in (48 <=? n) && (n <=? 57).

Definition digit_value (c : ascii) : Z := code c - 48.

(** Underscores of a numeric literal: each one stands between two
    digits.  Returns the text without them. *)
Fixpoint drop_underscores (prev : option ascii) (s : string) : option string :=
  match s with
  | EmptyString =>
      match prev with
      | Some "_"%char => None
      | _ => Some EmptyString
      end
  | String c r =>
      if Ascii.eqb c "_" then
        match prev with
        | Some p => if is_decimal p then drop_underscores (Some c) r else None
        | None => None
        end
      else
        match prev with
        | Some "_"%char =>
            if is_decimal c
            then option_map (String c) (drop_underscores (Some c) r)
            else None
        | _ => option_map (String c) (drop_underscores (Some c) r)
        end
  end.

(** Reads a maximal run of decimal digits: the value read so far,
    the number of digits read and the rest of the text. *)
Fixpoint digits_run (acc : Z) (n : Z) (s : string) : Z * Z * string :=
  match s with
  | String c r =>
      if is_decimal c then digits_run (10 * acc + digit_value c) (n + 1) r
      else (acc, n, s)
  | EmptyString => (acc, n, s)
  end.

(** An optional sign: [true] for minus. *)
Definition sign_of (s : string) : bool * string :=
  match s with
  | String "-" r => (true, r)
  | String "+" r => (false, r)
  | _ => (false, s)
  end.

(** [int(s)] on text, base ten: white space around, an optional sign,
    decimal digits with single underscores between them.  The integer
    has no bound; the bound that an interpreter may put on the number
    of digits is not part of the model. *)
Definition int_of_str (s : string) : result Z :=
  match drop_underscores None (strip s) with
  | None => Raise ValueError
  | Some t =>
      let (neg, body) := sign_of t in
      match digits_run 0 0 body with
      | (v, n, EmptyString) =>
          if 0 <? n then Ok (if neg then - v else v) else Raise ValueError
      | _ => Raise ValueError
      end
  end.

(** The value of [x or 0] for a text [x], and [int] of it. *)
Inductive str_or_int : Type :=
| PStr (s : string)
| PInt (n : Z).

Definition or_zero (s : string) : str_or_int :=
  match s with
  | EmptyString => PInt 0
  | _ => PStr s
  end.

Definition int (x : str_or_int) : result Z :=
  match x with
  | PInt n => Ok n
  | PStr s => int_of_str s
  end.

(** *** Floats *)

Definition float : Type := spec_float.
Definition prec : Z := 53.
Definition emax : Z := 1024.

(** [float(n)] for an integer [n]: the nearest float, ties to even.
    The program applies it to 1000 and 1000000 only; beyond the
    largest float, where Python raises, the definition rounds to an
    infinity as [float] does on text. *)
Definition float_of_int (n : Z) : float := binary_normalize prec emax n 0 false.

(** [x / y] on floats with a non-zero [y]. *)
Definition truediv (x y : float) : float := SFdiv prec emax x y.

(** The float nearest to [(-1)^neg * m * 10^e10], ties to even, for
    a natural [m]. *)
Definition float_of_decimal (neg : bool) (m e10 : Z) : float :=
  match m with
  | Z0 => S754_zero neg
  | Zpos p =>
      if 0 <=? e10 then binary_normalize prec emax (cond_Zopp neg (m * 10 ^ e10)) 0 neg
      else
        let '(q, e, l) := SFdiv_core_binary prec emax m 0 (10 ^ (- e10)) 0 in
        binary_round_aux prec emax neg q e l
  | Zneg _ => S754_nan
  end.

Definition lower (c : ascii) : ascii :=
  let n := code c in
  if (65 <=? n) && (n <=? 90) then ascii_of_nat (Z.to_nat (n + 32)) else c.

Fixpoint lower_str (s : string) : string :=
  match s with
  | EmptyString => EmptyString
  | String c r => String (lower c) (lower_str r)
  end.

(** [digits [. [digits]] | . digits], then an optional exponent:
    the digits as one natural number and the power of ten. *)
Definition parse_number (body : string) : option (Z * Z) :=
  let '(ip, n1, r1) := digits_run 0 0 body in
  let '(m, n2, r2) :=
    match r1 with
    | String "." r => digits_run ip 0 r
    | _ => (ip, 0, r1)
    end in
  if 0 <? n1 + n2 then
    match r2 with
    | EmptyString => Some (m, - n2)
    | String c r =>
        if Ascii.eqb (lower c) "e" then
          let (eneg, ebody) := sign_of r in
          match digits_run 0 0 ebody with
          | (ev, n3, EmptyString) =>
              if 0 <? n3 then Some (m, (if eneg then - ev else ev) - n2) else None
          | _ => None
          end
        else None
    end
  else None.

Definition parse_inf_nan (neg : bool) (body : string) : option float :=
  let l := lower_str body in
  if String.eqb l "inf" || String.eqb l "infinity" then Some (S754_infinity neg)
  else if String.eqb l "nan" then Some S754_nan
  else None.

(** [float(s)] on text: white space around, an optional sign, then a
    decimal number with an optional exponent, or one of [inf],
    [infinity] and [nan] in any case.  The result is the nearest
    float, ties to even, an infinity when the number is too large. *)
Definition float_of_str (s : string) : result float :=
  match drop_underscores None (strip s) with
  | None => Raise ValueError
  | Some t =>
      let (neg, body) := sign_of t in
      match parse_number body with
      | Some (m, e10) => Ok (float_of_decimal neg m e10)
      | None =>
          match parse_inf_nan neg body with
          | Some f => Ok f
          | None => Raise ValueError
          end
      end
  end.

(** A float literal of the program text. *)
Definition literal (s : string) : float :=
  match float_of_str s with
  | Ok f => f
  | Raise _ => S754_nan
  end.

End Py.

Import Py.

(** ** [os.path] for POSIX *)

Module PosixPath.

Definition sep : ascii := "/".

(** [os.path.join(a, b)] *)
Definition join (a b : string) : string :=
  if startswith b "/" then b
  else if String.eqb a "" || endswith_char a sep then a ++ b
  else a ++ "/" ++ b.

(** [(p[:i], p[i:])] for [i = p.rfind('/') + 1] *)
Fixpoint rsplit_sep (p : string) : string * string :=
  match p with
  | EmptyString => (EmptyString, EmptyString)
  | String c r =>
      let (h, t) := rsplit_sep r in
      match h with
      | EmptyString =>
          if Ascii.eqb c sep then (String c EmptyString, t)
          else (EmptyString, String c t)
      | _ => (String c h, t)
      end
  end.

(** [s.rstrip('/')] *)
Fixpoint rstrip_sep (s : string) : string :=
  match s with
  | EmptyString => EmptyString
  | String c r =>
      match rstrip_sep r with
      | EmptyString => if Ascii.eqb c sep then EmptyString else String c EmptyString
      | r' => String c r'
      end
  end.

(** [s == '/' * len(s)] *)
Fixpoint all_sep (s : string) : bool :=
  match s with
  | EmptyString => true
  | String c r => Ascii.eqb c sep && all_sep r
  end.

(** [os.path.basename(p)] *)
Definition basename (p : string) : string := snd (rsplit_sep p).

(** [os.path.dirname(p)] *)
Definition dirname (p : string) : string :=
  let head := fst (rsplit_sep p) in
  if negb (String.eqb head "") && negb (all_sep head) then rstrip_sep head
  else head.

(** [p.split('/')] *)
Fixpoint split_sep (p : string) : list string :=
  match p with
  | EmptyString => [EmptyString]
  | String c r =>
      if Ascii.eqb c sep then EmptyString :: split_sep r
      else
        match split_sep r with
        | [] => [String c EmptyString]
        | h :: t => String c h :: t
        end
  end.

End PosixPath.

(** ** The file system the adapter reads

    A tree of directories and regular files, the entries of a directory
    in the order in which the system enumerates them.  A file carries
    its content as text; for the sensor files this is the text in the
    trimmed form in which the reader of [common.py] returns it.
    Symbolic links are not modelled ([os.walk] does not descend into
    them).  Paths are resolved from the root. *)

Module FS.
Import PosixPath.

#[warnings="-register-all"]
Inductive entry : Type :=
| File (name : string) (text : string)
| Dir (name : string) (entries : list entry).

Definition name_of (e : entry) : string :=
  match e with
  | File n _ => n
  | Dir n _ => n
  end.

Definition is_dir (e : entry) : bool :=
  match e with
  | Dir _ _ => true
  | File _ _ => false
  end.

(** The entries of the root directory. *)
Definition FileSystem : Type := list entry.

Fixpoint lookup (n : string) (es : list entry) : option entry :=
  match es with
  | [] => None
  | e :: r => if String.eqb (name_of e) n then Some e else lookup n r
  end.

(** Resolution of the components of a path from [cur], whose
    ancestors are [stack], nearest first. *)
Fixpoint resolve_from (stack : list entry) (cur : entry) (comps : list string)
  : option entry :=
  match comps with
  | [] => Some cur
  | c :: rest =>
      match cur with
      | File _ _ => None
      | Dir _ es =>
          if String.eqb c "" || String.eqb c "." then resolve_from stack cur rest
          else if String.eqb c ".." then
            match stack with
            | [] => resolve_from [] cur rest
            | p :: st => resolve_from st p rest
            end
          else
            match lookup c es with
            | Some e => resolve_from (cur :: stack) e rest
            | None => None
            end
      end
  end.

Definition resolve (fs : FileSystem) (path : string) : option entry :=
  match path with
  | EmptyString => None
  | _ => resolve_from [] (Dir "" fs) (split_sep path)
  end.

(** [os.path.exists(path)] *)
Definition exists_ (fs : FileSystem) (path : string) : bool :=
  match resolve fs path with
  | Some _ => true
  | None => false
  end.

Definition dirnames (es : list entry) : list string :=
  map name_of (filter is_dir es).

Definition filenames (es : list entry) : list string :=
  map name_of (filter (fun e => negb (is_dir e)) es).

(** What [os.walk(top)] yields, top down, when [top] names [e]: the
    directory itself, then each of its sub-directories in turn.  A
    [top] that cannot be scanned yields nothing. *)
Fixpoint walk_entry (top : string) (e : entry)
  : list (string * list string * list string) :=
  match e with
  | File _ _ => []
  | Dir _ es =>
      (top, dirnames es, filenames es)
        :: (fix subdirs (l : list entry) :=
              match l with
              | [] => []
              | File _ _ :: r => subdirs r
              | (Dir n _) as d :: r => (walk_entry (join top n) d ++ subdirs r)%list
              end) es
  end.

(** [os.walk(top)] *)
Definition walk (fs : FileSystem) (top : string)
  : list (string * list string * list string) :=
  match resolve fs top with
  | Some e => walk_entry top e
  | None => []
  end.

(** *** Trees that a file system can hold

    A name is not empty, is neither [.] nor [..] and has no separator
    in it; the names of a directory are distinct. *)

Fixpoint has_sep (s : string) : bool :=
  match s with
  | EmptyString => false
  | String c r => Ascii.eqb c sep || has_sep r
  end.

Definition proper_name (n : string) : bool :=
  negb (String.eqb n "") && negb (String.eqb n ".") && negb (String.eqb n "..")
  && negb (has_sep n).

Fixpoint unique_names (es : list entry) : bool :=
  match es with
  | [] => true
  | e :: r =>
      negb (existsb (fun e' => String.eqb (name_of e') (name_of e)) r)
      && unique_names r
  end.

Fixpoint well_formed (e : entry) : bool :=
  match e with
  | File n _ => proper_name n
  | Dir n es =>
      proper_name n && unique_names es
      && (fix all (l : list entry) : bool :=
            match l with
            | [] => true
            | x :: r => well_formed x && all r
            end) es
  end.

(** The entries of a directory are well formed and distinct. *)
Definition contents_ok (e : entry) : bool :=
  match e with
  | File _ _ => true
  | Dir _ es => unique_names es && forallb well_formed es
  end.

Definition well_formed_fs (fs : FileSystem) : bool :=
  unique_names fs && forallb well_formed fs.

End FS.

(** ** Collaborators of the class that live in other modules *)

Module Common.
Import FS.

(** Modelled from the spec: [Common.read_txt_file] of
    [sonic_platform/common.py], which is not part of the sources at
    hand.  It opens a path and returns the trimmed text of the file;
    it does not raise on a missing file and returns an empty text
    instead, so that callers can test the result for truth. *)
Definition read_txt_file (fs : FileSystem) (path : string) : string :=
  match resolve fs path with
  | Some (File _ text) => text
  | _ => EmptyString
  end.

End Common.

Module Eeprom.
Import FS.

(** A row of the field layout: name, type code, length in bytes. *)
Definition field : Type := string * string * Z.

(** Modelled from the spec: the decoder [DeviceEEPROM] of
    [sonic_platform/eeprom.py], which is not part of the sources at
    hand.  It is constructed from a path, a field layout and a start
    offset, and exposes the decoded model and serial number. *)
Record DeviceEEPROM : Type := {
  eeprom_path : string;
  eeprom_format : list field;
  start_offset : Z;
  model_str : string;
  serial_number : string
}.

(** [blob[off : off + n]] *)
Definition slice (blob : string) (off n : Z) : string :=
  String.substring (Z.to_nat off) (Z.to_nat n) blob.

(** The text fields of the layout, in order, each with its name;
    padding rows (type code [x]) only advance the offset. *)
Fixpoint decode (blob : string) (off : Z) (fmt : list field)
  : list (string * string) :=
  match fmt with
  | [] => []
  | (n, ty, sz) :: r =>
      if String.eqb ty "x" then decode blob (off + sz) r
      else (n, slice blob off sz) :: decode blob (off + sz) r
  end.

Fixpoint assoc (k : string) (l : list (string * string)) : string :=
  match l with
  | [] => EmptyString
  | (k', v) :: r => if String.eqb k' k then v else assoc k r
  end.

(** [DeviceEEPROM(path, fmt, off)] *)
Definition new (fs : FileSystem) (path : string) (fmt : list field) (off : Z)
  : DeviceEEPROM :=
  let blob :=
    match resolve fs path with
    | Some (File _ text) => text
    | _ => EmptyString
    end in
  let fields := decode blob off fmt in
  {| eeprom_path := path;
     eeprom_format := fmt;
     start_offset := off;
     model_str := assoc "Model" fields;
     serial_number := assoc "Serial Number" fields |}.

End Eeprom.

(** ** More of Python: containers and [str.format] *)

Module PyData.

Definition rbind {A B : Type} (r : result A) (k : A -> result B) : result B :=
  match r with
  | Ok a => k a
  | Raise e => Raise e
  end.

(** [l[i]] on a list: a negative index counts from the end. *)
Definition getitem {A : Type} (l : list A) (i : Z) : result A :=
  let n := Z.of_nat (List.length l) in
  let j := if i <? 0 then i + n else i in
  if (0 <=? j) && (j <? n) then
    match nth_error l (Z.to_nat j) with
    | Some a => Ok a
    | None => Raise IndexError
    end
  else Raise IndexError.

(** [d[k]] on a dictionary with integer keys. *)
Fixpoint dict_getitem {A : Type} (d : list (Z * A)) (k : Z) : result A :=
  match d with
  | [] => Raise KeyError
  | (k', v) :: r => if k' =? k then Ok v else dict_getitem r k
  end.

(** [range(0, n)] *)
Definition range0 (n : Z) : list Z := map Z.of_nat (seq 0 (Z.to_nat n)).

(** [template.format(a0, a1, ...)] for the replacement fields this module
    writes: [{}] takes the next argument, [{d}] the argument of
    index [d]. *)
Fixpoint format_from (auto : nat) (template : string) (args : list string)
  : result string :=
  match template with
  | EmptyString => Ok EmptyString
  | String "{" (String "}" r) =>
      match nth_error args auto with
      | Some a => rbind (format_from (S auto) r args) (fun t => Ok (a ++ t))
      | None => Raise IndexError
      end
  | String "{" (String d (String "}" r)) =>
      if is_decimal d then
        match nth_error args (Z.to_nat (digit_value d)) with
        | Some a => rbind (format_from auto r args) (fun t => Ok (a ++ t))
        | None => Raise IndexError
        end
      else Raise ValueError
  | String "{" _ => Raise ValueError
  | String "}" _ => Raise ValueError
  | String c r => rbind (format_from auto r args) (fun t => Ok (String c t))
  end.

Definition format (template : string) (args : list string) : result string :=
  format_from 0 template args.

(** Truth value of a text. *)
Definition truthy (s : string) : bool := negb (String.eqb s "").

End PyData.

Import PyData.

(** ** [sonic_platform/psu.py] *)

Module psu.
Import PosixPath FS Eeprom.

Definition PSU_E1031_STAT_PATH : string := "/sys/devices/platform/e1031.smc/".
Definition HWMON_PATH : string := "/sys/bus/i2c/devices/i2c-{0}/{0}-00{1}/hwmon".
Definition PSU_NAME_LIST : list string := ["PSU-R"; "PSU-L"].
Definition PSU_NUM_FAN : list Z := [1; 1].

Module I2C.
Record entry : Type := { num : Z; addr : string; eeprom_addr : string }.
End I2C.

Definition PSU_I2C_MAPPING : list (Z * I2C.entry) :=
  [ (0, {| I2C.num := 13; I2C.addr := "5b"; I2C.eeprom_addr := "53" |});
    (1, {| I2C.num := 12; I2C.addr := "5a"; I2C.eeprom_addr := "52" |}) ].

Definition PSU_EEPROM_PATH : string := "/sys/bus/i2c/devices/{}-00{}/eeprom".
Definition PSU_EEPROM_FORMAT : list Eeprom.field :=
  [ ("Serial Number", "s", 16); ("burn", "x", 16);
    ("Model", "s", 16);
    ("Part Number", "s", 16) ].
Definition PSU_EEPROM_START_OFFSET : Z := 48.

(** The attribute [STATUS_LED_COLOR_OFF] that the class inherits from
    the platform base class. *)
Definition STATUS_LED_COLOR_OFF : string := "off".

(** The helper object [Common()]: it has no attributes of its own. *)
Inductive Common : Type := Common_new.

(** A fan object, by the arguments its constructor receives: the two
    positional ones and the two keyword ones. *)
Record Fan : Type := {
  fan_arg0 : Z;
  fan_arg1 : Z;
  is_psu_fan : bool;
  psu_index : Z
}.

(** The attributes of a [Psu] object.  [_eeprom] is absent until a
    method assigns it. *)
Record Psu : Type := {
  _fan_list : list Fan;
  _api_common : Common;
  index : Z;
  psu_presence : string;
  psu_oper_status : string;
  i2c_num : Z;
  i2c_addr : string;
  hwmon_path : string;
  eeprom_addr : string;
  _eeprom : option DeviceEEPROM
}.

Definition set__eeprom (self : Psu) (e : DeviceEEPROM) : Psu :=
  {| _fan_list := _fan_list self;
     _api_common := _api_common self;
     index := index self;
     psu_presence := psu_presence self;
     psu_oper_status := psu_oper_status self;
     i2c_num := i2c_num self;
     i2c_addr := i2c_addr self;
     hwmon_path := hwmon_path self;
     eeprom_addr := eeprom_addr self;
     _eeprom := Some e |}.

(** *** Methods as computations

    A method reads the file system, reads and writes the attributes
    of [self], and returns a value or raises. *)

Definition M (A : Type) : Type := FileSystem -> Psu -> result A * Psu.

Definition ret {A : Type} (a : A) : M A := fun _ self => (Ok a, self).

Definition bind {A B : Type} (c : M A) (k : A -> M B) : M B :=
  fun fs self =>
    match c fs self with
    | (Ok a, self') => k a fs self'
    | (Raise e, self') => (Raise e, self')
    end.

Definition lift {A : Type} (r : result A) : M A := fun _ self => (r, self).

(** [self.f] *)
Definition attr {A : Type} (f : Psu -> A) : M A := fun _ self => (Ok (f self), self).

(** [self._eeprom = e] *)
Definition assign__eeprom (e : DeviceEEPROM) : M unit :=
  fun _ self => (Ok tt, set__eeprom self e).

(** [common.read_txt_file(path)] *)
Definition read_txt_file (common : Common) (path : string) : M string :=
  fun fs self => (Ok (Common.read_txt_file fs path), self).

(** [os.walk(top)], [os.path.exists(path)], [DeviceEEPROM(...)] *)
Definition os_walk (top : string) : M (list (string * list string * list string)) :=
  fun fs self => (Ok (walk fs top), self).

Definition os_path_exists (path : string) : M bool :=
  fun fs self => (Ok (exists_ fs path), self).

Definition DeviceEEPROM_new (path : string) (fmt : list Eeprom.field) (off : Z)
  : M DeviceEEPROM :=
  fun fs self => (Ok (Eeprom.new fs path fmt off), self).

Notation "x <- c ;; k" := (bind c (fun x => k))
  (at level 61, c at next level, right associativity).

(** [Psu(psu_index)] *)
Definition __init__ (psu_index : Z) : result Psu :=
  rbind (dict_getitem PSU_I2C_MAPPING psu_index) (fun m0 =>
  let i2c_num := I2C.num m0 in
  rbind (dict_getitem PSU_I2C_MAPPING psu_index) (fun m1 =>
  let i2c_addr := I2C.addr m1 in
  rbind (format HWMON_PATH [str_of_int i2c_num; i2c_addr]) (fun hwmon_path =>
  rbind (dict_getitem PSU_I2C_MAPPING psu_index) (fun m2 =>
  rbind (format PSU_EEPROM_PATH [str_of_int i2c_num; I2C.eeprom_addr m2]) (fun eeprom_addr =>
  rbind (getitem PSU_NUM_FAN psu_index) (fun nfan =>
  Ok {| _fan_list :=
          map (fun fan_index =>
                 {| fan_arg0 := fan_index; fan_arg1 := 0;
                    is_psu_fan := true; psu_index := psu_index |})
              (range0 nfan);
        _api_common := Common_new;
        index := psu_index;
        psu_presence := "psu{}_prs";
        psu_oper_status := "psu{}_status";
        i2c_num := i2c_num;
        i2c_addr := i2c_addr;
        hwmon_path := hwmon_path;
        eeprom_addr := eeprom_addr;
        _eeprom := None |})))))).

(** The inner loop of [_search_file_by_contain]: the files of one
    directory, in order, until one matches.  The text of a file is read
    only when its name starts with [file_start]. *)
Fixpoint search_files (common : Common) (search_str file_start dirpath : string)
  (files : list string) : M (option string) :=
  match files with
  | [] => ret None
  | name :: rest =>
      let file_path := join dirpath name in
      if startswith name file_start then
        text <- read_txt_file common file_path ;;
        if str_in search_str text then ret (Some file_path)
        else search_files common search_str file_start dirpath rest
      else search_files common search_str file_start dirpath rest
  end.

(** The outer loop: the directories that [os.walk] yields. *)
Fixpoint search_walk (common : Common) (search_str file_start : string)
  (w : list (string * list string * list string)) : M (option string) :=
  match w with
  | [] => ret None
  | (dirpath, dirnames, files) :: rest =>
      r <- search_files common search_str file_start dirpath files ;;
      match r with
      | Some file_path => ret (Some file_path)
      | None => search_walk common search_str file_start rest
      end
  end.

Definition _search_file_by_contain (directory search_str file_start : string)
  : M (option string) :=
  w <- os_walk directory ;;
  common <- attr _api_common ;;
  search_walk common search_str file_start w.

(** [if path:] on the result of the search: [None] and the empty
    text are false. *)
Definition found (path : option string) : option string :=
  match path with
  | Some p => if truthy p then Some p else None
  | None => None
  end.

Definition get_voltage : M float :=
  let psu_voltage := literal "0.0" in
  let voltage_name := "in{}_input" in
  let voltage_label := "vout1" in
  hwmon <- attr hwmon_path ;;
  vout_label_path <- _search_file_by_contain hwmon voltage_label "in" ;;
  match found vout_label_path with
  | Some vout_label_path =>
      let dir_name := dirname vout_label_path in
      let basename := basename vout_label_path in
      let in_num := filter_join isdigit basename in
      name <- lift (format voltage_name [in_num]) ;;
      let vout_path := join dir_name name in
      common <- attr _api_common ;;
      vout_val <- read_txt_file common vout_path ;;
      v <- lift (float_of_str vout_val) ;;
      ret (truediv v (float_of_int 1000))
  | None => ret psu_voltage
  end.

Definition get_current : M float :=
  let psu_current := literal "0.0" in
  let current_name := "curr{}_input" in
  let current_label := "iout1" in
  hwmon <- attr hwmon_path ;;
  curr_label_path <- _search_file_by_contain hwmon current_label "cur" ;;
  match found curr_label_path with
  | Some curr_label_path =>
      let dir_name := dirname curr_label_path in
      let basename := basename curr_label_path in
      let cur_num := filter_join isdigit basename in
      name <- lift (format current_name [cur_num]) ;;
      let cur_path := join dir_name name in
      common <- attr _api_common ;;
      cur_val <- read_txt_file common cur_path ;;
      v <- lift (float_of_str cur_val) ;;
      ret (truediv v (float_of_int 1000))
  | None => ret psu_current
  end.

Definition get_power : M float :=
  let psu_power := literal "0.0" in
  let current_name := "power{}_input" in
  let current_label := "pout1" in
  hwmon <- attr hwmon_path ;;
  pw_label_path <- _search_file_by_contain hwmon current_label "power" ;;
  match found pw_label_path with
  | Some pw_label_path =>
      let dir_name := dirname pw_label_path in
      let basename := basename pw_label_path in
      let pw_num := filter_join isdigit basename in
      name <- lift (format current_name [pw_num]) ;;
      let pw_path := join dir_name name in
      common <- attr _api_common ;;
      pw_val <- read_txt_file common pw_path ;;
      v <- lift (float_of_str pw_val) ;;
      ret (truediv v (float_of_int 1000000))
  | None => ret psu_power
  end.

Definition get_status : M bool :=
  let psu_location := ["R"; "L"] in
  common <- attr _api_common ;;
  template <- attr psu_oper_status ;;
  i <- attr index ;;
  loc <- lift (getitem psu_location i) ;;
  name <- lift (format template [loc]) ;;
  text <- read_txt_file common (PSU_E1031_STAT_PATH ++ name) ;;
  let power_status := or_zero text in
  n <- lift (int power_status) ;;
  ret (n =? 1).

Definition get_powergood_status : M bool := get_status.

Definition set_status_led (color : string) : M bool := ret false.

Definition get_status_led : M string := ret STATUS_LED_COLOR_OFF.

Definition get_name : M string :=
  i <- attr index ;;
  lift (getitem PSU_NAME_LIST i).

Definition get_presence : M bool :=
  let psu_location := ["R"; "L"] in
  common <- attr _api_common ;;
  template <- attr psu_presence ;;
  i <- attr index ;;
  loc <- lift (getitem psu_location i) ;;
  name <- lift (format template [loc]) ;;
  text <- read_txt_file common (PSU_E1031_STAT_PATH ++ name) ;;
  let presences_status := or_zero text in
  n <- lift (int presences_status) ;;
  ret (n =? 1).

Definition get_model : M string :=
  path <- attr eeprom_addr ;;
  e <- DeviceEEPROM_new path PSU_EEPROM_FORMAT PSU_EEPROM_START_OFFSET ;;
  _ <- assign__eeprom e ;;
  e' <- attr _eeprom ;;
  match e' with
  | Some d => ret (model_str d)
  | None => lift (Raise AttributeError)
  end.

Definition get_serial : M string :=
  path <- attr eeprom_addr ;;
  e <- DeviceEEPROM_new path PSU_EEPROM_FORMAT PSU_EEPROM_START_OFFSET ;;
  _ <- assign__eeprom e ;;
  e' <- attr _eeprom ;;
  match e' with
  | Some d => ret (serial_number d)
  | None => lift (Raise AttributeError)
  end.

Definition get_position_in_parent : M Z := ret (-1).

Definition is_replaceable : M bool := ret true.

Definition get_temperature : M (option float) :=
  let psu_temperature := None in
  let temperature_name := "temp{}_input" in
  let temperature_label := "vout1" in
  hwmon <- attr hwmon_path ;;
  vout_label_path <- _search_file_by_contain hwmon temperature_label "in" ;;
  match found vout_label_path with
  | Some vout_label_path =>
      let dir_name := dirname vout_label_path in
      let basename := basename vout_label_path in
      let in_num := filter_join isdigit basename in
      name <- lift (format temperature_name [in_num]) ;;
      let temp_path := join dir_name name in
      common <- attr _api_common ;;
      vout_val <- read_txt_file common temp_path ;;
      v <- lift (float_of_str vout_val) ;;
      ret (Some (truediv v (float_of_int 1000)))
  | None => ret psu_temperature
  end.

Definition get_temperature_high_threshold : M (option float) :=
  let psu_temperature := None in
  let temperature_name := "temp{}_max" in
  let temperature_label := "vout1" in
  hwmon <- attr hwmon_path ;;
  vout_label_path <- _search_file_by_contain hwmon temperature_label "in" ;;
  match found vout_label_path with
  | Some vout_label_path =>
      let dir_name := dirname vout_label_path in
      let basename := basename vout_label_path in
      let in_num := filter_join isdigit basename in
      name <- lift (format temperature_name [in_num]) ;;
      let temp_path := join dir_name name in
      common <- attr _api_common ;;
      vout_val <- read_txt_file common temp_path ;;
      v <- lift (float_of_str vout_val) ;;
      ret (Some (truediv v (float_of_int 1000)))
  | None => ret psu_temperature
  end.

Definition get_voltage_high_threshold : M float :=
  let psu_voltage := literal "12.6" in
  let voltage_name := "in{}_crit" in
  let voltage_label := "vout1" in
  hwmon <- attr hwmon_path ;;
  vout_label_path <- _search_file_by_contain hwmon voltage_label "in" ;;
  match found vout_label_path with
  | Some vout_label_path =>
      let dir_name := dirname vout_label_path in
      let basename := basename vout_label_path in
      let in_num := filter_join isdigit basename in
      name <- lift (format voltage_name [in_num]) ;;
      let vout_path := join dir_name name in
      present <- os_path_exists vout_path ;;
      if present then
        common <- attr _api_common ;;
        vout_val <- read_txt_file common vout_path ;;
        v <- lift (float_of_str vout_val) ;;
        ret (truediv v (float_of_int 1000))
      else ret psu_voltage
  | None => ret psu_voltage
  end.

Definition get_voltage_low_threshold : M float :=
  let psu_voltage := literal "11.4" in
  let voltage_name := "in{}_lcrit" in
  let voltage_label := "vout1" in
  hwmon <- attr hwmon_path ;;
  vout_label_path <- _search_file_by_contain hwmon voltage_label "in" ;;
  match found vout_label_path with
  | Some vout_label_path =>
      let dir_name := dirname vout_label_path in
      let basename := basename vout_label_path in
      let in_num := filter_join isdigit basename in
      name <- lift (format voltage_name [in_num]) ;;
      let vout_path := join dir_name name in
      present <- os_path_exists vout_path ;;
      if present then
        common <- attr _api_common ;;
        vout_val <- read_txt_file common vout_path ;;
        v <- lift (float_of_str vout_val) ;;
        ret (truediv v (float_of_int 1000))
      else ret psu_voltage
  | None => ret psu_voltage
  end.

Definition get_maximum_supplied_power : M float := ret (literal "200.0").

End psu.

Import PosixPath FS Eeprom psu.

(** ** Vocabulary of the specification *)

Module Spec.

(** The files that a walk enumerates, in order, each as the
    directory path it is listed under and its name. *)
Definition enumerate (w : list (string * list string * list string))
  : list (string * string) :=
  flat_map (fun t => map (pair (fst (fst t))) (snd t)) w.

Definition path_of (f : string * string) : string := join (fst f) (snd f).

(** A file is a candidate when its name starts with the prefix and
    the text read at its path contains the label. *)
Definition candidate (fs : FileSystem) (search_str file_start : string)
  (f : string * string) : bool :=
  startswith (snd f) file_start
  && str_in search_str (Common.read_txt_file fs (path_of f)).

(** The path of the first candidate, if any. *)
Definition locate (fs : FileSystem) (directory search_str file_start : string)
  : option string :=
  option_map path_of
    (find (candidate fs search_str file_start) (enumerate (walk fs directory))).

(** The directory at path [d] holds a regular file [n] with [text]. *)
Definition holds (fs : FileSystem) (d n text : string) : Prop :=
  exists nm es, resolve fs d = Some (Dir nm es) /\ In (File n text) es.

(** An integer reading divided by its scale. *)
Definition scaled (n scale : Z) : float :=
  truediv (float_of_int n) (float_of_int scale).

(** Two floats that denote the same number: equal, or zeros that
    differ at most in sign. *)
Definition same_number (v w : float) : Prop :=
  v = w \/ exists s s', v = S754_zero s /\ w = S754_zero s'.

(** The companion of a located label file: the name made from the
    digits of its base name, in its directory. *)
Definition companion (label_path pre suf : string) : string :=
  join (dirname label_path)
       (pre ++ filter_join isdigit (basename label_path) ++ suf).

(** What a reading getter does once the label file is located: it
    reads the companion, takes the text as a float and divides it by
    the scale. *)
Definition reading (fs : FileSystem) (self : Psu) (p pre suf : string) (scale : Z)
  : result float * Psu :=
  match float_of_str (Common.read_txt_file fs (companion p pre suf)) with
  | Ok v => (Ok (truediv v (float_of_int scale)), self)
  | Raise e => (Raise e, self)
  end.

(** The fixed files of the two slots. *)
Definition presence_file (i : Z) : string :=
  if i =? 0 then "/sys/devices/platform/e1031.smc/psuR_prs"
  else "/sys/devices/platform/e1031.smc/psuL_prs".

Definition status_file (i : Z) : string :=
  if i =? 0 then "/sys/devices/platform/e1031.smc/psuR_status"
  else "/sys/devices/platform/e1031.smc/psuL_status".

(** The methods of the class. *)
Inductive method : Type :=
| get_voltage_
| get_current_
| get_power_
| get_powergood_status_
| set_status_led_ (color : string)
| get_status_led_
| get_name_
| get_presence_
| get_status_
| get_model_
| get_serial_
| get_position_in_parent_
| is_replaceable_
| get_temperature_
| get_temperature_high_threshold_
| get_voltage_high_threshold_
| get_voltage_low_threshold_
| get_maximum_supplied_power_.

(** The object after a call of a method. *)
Definition state_after (m : method) (fs : FileSystem) (self : Psu) : Psu :=
  match m with
  | get_voltage_ => snd (get_voltage fs self)
  | get_current_ => snd (get_current fs self)
  | get_power_ => snd (get_power fs self)
  | get_powergood_status_ => snd (get_powergood_status fs self)
  | set_status_led_ color => snd (set_status_led color fs self)
  | get_status_led_ => snd (get_status_led fs self)
  | get_name_ => snd (get_name fs self)
  | get_presence_ => snd (get_presence fs self)
  | get_status_ => snd (get_status fs self)
  | get_model_ => snd (get_model fs self)
  | get_serial_ => snd (get_serial fs self)
  | get_position_in_parent_ => snd (get_position_in_parent fs self)
  | is_replaceable_ => snd (is_replaceable fs self)
  | get_temperature_ => snd (get_temperature fs self)
  | get_temperature_high_threshold_ => snd (get_temperature_high_threshold fs self)
  | get_voltage_high_threshold_ => snd (get_voltage_high_threshold fs self)
  | get_voltage_low_threshold_ => snd (get_voltage_low_threshold fs self)
  | get_maximum_supplied_power_ => snd (get_maximum_supplied_power fs self)
  end.

(** The objects of index [idx] that a program can hold: the one the
    constructor returns, and what it becomes after calls. *)
Inductive object_of (idx : Z) : Psu -> Prop :=
| object_new (self : Psu) :
    __init__ idx = Ok self -> object_of idx self
| object_call (self : Psu) (m : method) (fs : FileSystem) :
    object_of idx self -> object_of idx (state_after m fs self).

(** What a status getter returns for the file it reads: whether the
    text, or 0 for no text, is the integer 1. *)
Definition flag (fs : FileSystem) (path : string) : result bool :=
  match int (or_zero (Common.read_txt_file fs path)) with
  | Ok n => Ok (n =? 1)
  | Raise e => Raise e
  end.

(** Two objects that agree on every attribute but [_eeprom]. *)
Definition same_but_eeprom (a b : Psu) : Prop :=
  _fan_list a = _fan_list b
  /\ _api_common a = _api_common b
  /\ index a = index b
  /\ psu_presence a = psu_presence b
  /\ psu_oper_status a = psu_oper_status b
  /\ i2c_num a = i2c_num b
  /\ i2c_addr a = i2c_addr b
  /\ hwmon_path a = hwmon_path b
  /\ eeprom_addr a = eeprom_addr b.

(** A computation is a read-only one when it returns the object it
    was given. *)
Definition read_only {A : Type} (c : M A) : Prop :=
  forall fs self, snd (c fs self) = self.

(** *** Sample states *)

Definition psu0 : Psu :=
  {| _fan_list := [{| fan_arg0 := 0; fan_arg1 := 0; is_psu_fan := true; psu_index := 0 |}];
     _api_common := Common_new;
     index := 0;
     psu_presence := "psu{}_prs";
     psu_oper_status := "psu{}_status";
     i2c_num := 13;
     i2c_addr := "5b";
     hwmon_path := "/sys/bus/i2c/devices/i2c-13/13-005b/hwmon";
     eeprom_addr := "/sys/bus/i2c/devices/13-0053/eeprom";
     _eeprom := None |}.

Definition psu1 : Psu :=
  {| _fan_list := [{| fan_arg0 := 0; fan_arg1 := 0; is_psu_fan := true; psu_index := 1 |}];
     _api_common := Common_new;
     index := 1;
     psu_presence := "psu{}_prs";
     psu_oper_status := "psu{}_status";
     i2c_num := 12;
     i2c_addr := "5a";
     hwmon_path := "/sys/bus/i2c/devices/i2c-12/12-005a/hwmon";
     eeprom_addr := "/sys/bus/i2c/devices/12-0052/eeprom";
     _eeprom := None |}.

(** A system tree with the sensor files of slot 0 in [hwmon5], the
    status files of the platform and a blob for the first EEPROM. *)
Definition sysfs (sensors status : list entry) (blob : string) : FileSystem :=
  [ Dir "sys"
      [ Dir "bus"
          [ Dir "i2c"
              [ Dir "devices"
                  [ Dir "i2c-13"
                      [ Dir "13-005b" [ Dir "hwmon" [ Dir "hwmon5" sensors ] ] ];
                    Dir "13-0053" [ File "eeprom" blob ] ] ] ];
        Dir "devices" [ Dir "platform" [ Dir "e1031.smc" status ] ] ] ].

Definition fs_voltage : FileSystem :=
  sysfs [ File "in3_input" "12500"; File "in3_label" "vout1" ] [] "".

Definition fs_power : FileSystem :=
  sysfs [ File "power2_label" "pout1"; File "power2_input" "250500000" ] [] "".

Definition fs_no_crit : FileSystem :=
  sysfs [ File "in0_input" "0"; File "in0_label" "vout1" ] [] "".

Definition fs_no_sensor : FileSystem :=
  sysfs [ File "name" "dps200" ] [] "".

Definition fs_malformed : FileSystem :=
  sysfs [ File "in3_label" "vout1"; File "in3_input" "n/a" ] [] "".

Definition fs_present : FileSystem :=
  sysfs [] [ File "psuR_prs" "1"; File "psuR_status" "1" ] "".

Definition fs_no_status : FileSystem :=
  sysfs [] [] "".

(** An EEPROM image: 48 bytes of header, then serial number, padding,
    model and part number, 16 bytes each. *)
Definition blob : string :=
  "................................................"
  ++ "SN-E1031-0000042" ++ "0000000000000000"
  ++ "DPS-200PB-185 A " ++ "PN-0185-00001234".

Definition fs_eeprom : FileSystem :=
  sysfs [] [ File "psuR_prs" "1"; File "psuR_status" "1" ] blob.

Definition hwmon5 : string := "/sys/bus/i2c/devices/i2c-13/13-005b/hwmon/hwmon5".

End Spec.

(** ** Vocabulary for the rest of the class *)

Module Ext.

(** What a method returns, whatever its type. *)
Inductive value : Type :=
| VFloat (x : float)
| VOptFloat (x : option float)
| VBool (b : bool)
| VStr (s : string)
| VInt (n : Z).

Definition returned {A : Type} (inj : A -> value) (r : result A * Psu) : result value :=
  match fst r with
  | Ok a => Ok (inj a)
  | Raise e => Raise e
  end.

(** The value or the exception of a call of a method. *)
Definition return_of (m : Spec.method) (fs : FileSystem) (self : Psu) : result value :=
  match m with
  | Spec.get_voltage_ => returned VFloat (get_voltage fs self)
  | Spec.get_current_ => returned VFloat (get_current fs self)
  | Spec.get_power_ => returned VFloat (get_power fs self)
  | Spec.get_powergood_status_ => returned VBool (get_powergood_status fs self)
  | Spec.set_status_led_ color => returned VBool (set_status_led color fs self)
  | Spec.get_status_led_ => returned VStr (get_status_led fs self)
  | Spec.get_name_ => returned VStr (get_name fs self)
  | Spec.get_presence_ => returned VBool (get_presence fs self)
  | Spec.get_status_ => returned VBool (get_status fs self)
  | Spec.get_model_ => returned VStr (get_model fs self)
  | Spec.get_serial_ => returned VStr (get_serial fs self)
  | Spec.get_position_in_parent_ => returned VInt (get_position_in_parent fs self)
  | Spec.is_replaceable_ => returned VBool (is_replaceable fs self)
  | Spec.get_temperature_ => returned VOptFloat (get_temperature fs self)
  | Spec.get_temperature_high_threshold_ =>
      returned VOptFloat (get_temperature_high_threshold fs self)
  | Spec.get_voltage_high_threshold_ => returned VFloat (get_voltage_high_threshold fs self)
  | Spec.get_voltage_low_threshold_ => returned VFloat (get_voltage_low_threshold fs self)
  | Spec.get_maximum_supplied_power_ => returned VFloat (get_maximum_supplied_power fs self)
  end.

(** Every character of a text satisfies [f]. *)
Fixpoint str_forall (f : ascii -> bool) (s : string) : bool :=
  match s with
  | EmptyString => true
  | String c r => f c && str_forall f r
  end.

(** The text at [path] taken as a float and divided by [scale]. *)
Definition read_scaled (fs : FileSystem) (self : Psu) (path : string) (scale : Z)
  : result float * Psu :=
  match float_of_str (Common.read_txt_file fs path) with
  | Ok v => (Ok (truediv v (float_of_int scale)), self)
  | Raise e => (Raise e, self)
  end.

(** A reading returned as an optional value. *)
Definition optional (r : result float * Psu) : result (option float) * Psu :=
  match r with
  | (Ok v, s) => (Ok (Some v), s)
  | (Raise e, s) => (Raise e, s)
  end.

(** *** Sample states *)

(** A system tree with the sensor directories of both slots and the
    status files of the platform. *)
Definition sysfs2 (hwmon0 sensors1 status : list entry) : FileSystem :=
  [ Dir "sys"
      [ Dir "bus"
          [ Dir "i2c"
              [ Dir "devices"
                  [ Dir "i2c-13" [ Dir "13-005b" [ Dir "hwmon" hwmon0 ] ];
                    Dir "i2c-12"
                      [ Dir "12-005a" [ Dir "hwmon" [ Dir "hwmon6" sensors1 ] ] ] ] ] ];
        Dir "devices" [ Dir "platform" [ Dir "e1031.smc" status ] ] ] ].

Definition sensors0 : list entry :=
  [ File "in1_label" "vin"; File "in1_input" "230000";
    File "in2_label" "vout1"; File "in2_input" "12100";
    File "in2_crit" "13000"; File "in2_lcrit" "11000";
    File "curr2_label" "iout1"; File "curr2_input" "4500";
    File "power2_label" "pout1"; File "power2_input" "54450000";
    File "temp2_input" "31500"; File "temp2_max" "85000" ].

Definition sensors1 : list entry :=
  [ File "in3_label" "vout1"; File "in3_input" "12000" ].

Definition status : list entry :=
  [ File "psuR_prs" "1"; File "psuR_status" "1";
    File "psuL_prs" "1"; File "psuL_status" "0" ].

Definition fs_both : FileSystem := sysfs2 [ Dir "hwmon5" sensors0 ] sensors1 status.

(** The same files, enumerated in the opposite order. *)
Definition fs_reversed : FileSystem :=
  sysfs2 [ Dir "hwmon5" (rev sensors0) ] sensors1 status.

(** A label file in the sensor directory itself, listed after a
    sub-directory that holds another one. *)
Definition fs_nested : FileSystem :=
  sysfs2 [ Dir "hwmon5" [ File "in9_label" "vout1" ]; File "in1_label" "vout1" ] [] [].

(** A label file without the files that go with it. *)
Definition fs_label_only : FileSystem :=
  sysfs2 [ Dir "hwmon5" [ File "in2_label" "vout1" ] ] [] [].

(** A threshold file and a status file with text that is no number. *)
Definition fs_bad_text : FileSystem :=
  sysfs2 [ Dir "hwmon5" [ File "in2_label" "vout1"; File "in2_crit" "high" ] ] []
    [ File "psuR_prs" "yes"; File "psuR_status" "on" ].

Definition hwmon0 : string := "/sys/bus/i2c/devices/i2c-13/13-005b/hwmon".

End Ext.

(** * Properties *)

(** ** The model on known values *)

Example float_of_str_12_6 :
  float_of_str "12.6" = Ok (S754_finite false 7093169413108531 (-49)).
Proof. reflexivity. Qed.

Example float_of_str_tenth :
  float_of_str " 1_0e-2 " = Ok (S754_finite false 7205759403792794 (-56)).
Proof. reflexivity. Qed.

Example float_of_str_overflow : float_of_str "1e400" = Ok (S754_infinity false).
Proof. reflexivity. Qed.

Example float_of_str_rejects :
  map float_of_str [""; "n/a"; "1__0"; "1e"; "0x10"; "--1"]
  = map (fun _ => Raise ValueError) [1; 2; 3; 4; 5; 6].
Proof. reflexivity. Qed.

Example int_of_str_values :
  map int_of_str [" 1"; "01"; "+1"; "0_1"; "-12"; "1.0"; ""]
  = [Ok 1; Ok 1; Ok 1; Ok 1; Ok (-12); Raise ValueError; Raise ValueError].
Proof. reflexivity. Qed.

Example truediv_12500 :
  truediv (literal "12500") (float_of_int 1000) = literal "12.5".
Proof. reflexivity. Qed.

Example filter_join_digits : filter_join isdigit "in3_label" = "3".
Proof. reflexivity. Qed.

Example format_hwmon :
  format HWMON_PATH [str_of_int 13; "5b"]
  = Ok "/sys/bus/i2c/devices/i2c-13/13-005b/hwmon".
Proof. reflexivity. Qed.

Example join_values :
  (join "/a" "b", join "/a/" "b", join "" "b", join "/a" "/b")
  = ("/a/b", "/a/b", "b", "/b").
Proof. reflexivity. Qed.

Example dirname_basename_values :
  (dirname "/a/b", basename "/a/b", dirname "/a", dirname "a", dirname "/a//b")
  = ("/a", "b", "/", "", "/a").
Proof. reflexivity. Qed.

Example init_values :
  (__init__ 0, __init__ 1, __init__ 2, __init__ (-1))
  = (Ok Spec.psu0, Ok Spec.psu1, Raise KeyError, Raise KeyError).
Proof. reflexivity. Qed.

Example walk_sample :
  walk Spec.fs_voltage (hwmon_path Spec.psu0)
  = [ (hwmon_path Spec.psu0, ["hwmon5"], []);
      (Spec.hwmon5, [], ["in3_input"; "in3_label"]) ].
Proof. reflexivity. Qed.

Example walk_of_a_file :
  walk Spec.fs_voltage (Spec.hwmon5 ++ "/in3_label") = [].
Proof. reflexivity. Qed.

Example get_serial_sample :
  fst (get_serial Spec.fs_eeprom Spec.psu0) = Ok "SN-E1031-0000042".
Proof. reflexivity. Qed.

Example samples_well_formed :
  forallb well_formed_fs
    [ Spec.fs_voltage; Spec.fs_power; Spec.fs_no_crit; Spec.fs_no_sensor;
      Spec.fs_malformed; Spec.fs_present; Spec.fs_no_status; Spec.fs_eeprom ]
  = true.
Proof. reflexivity. Qed.

(** ** Text *)

Section Text.

Lemma prefix_app (p s : string) :
  String.prefix p s = true <-> exists b, s = p ++ b.
Proof.
  revert s; induction p as [|c p IH]; intros [|c' s]; simpl.
  - split; [intros _; now exists "" | reflexivity].
  - split; [intros _; now exists (String c' s) | reflexivity].
  - split; [discriminate | intros [b Hb]; discriminate].
  - destruct (Ascii.ascii_dec c c') as [->|Hc].
    + rewrite IH. split; intros [b Hb]; exists b; congruence.
    + split; [discriminate | intros [b Hb]; congruence].
Qed.

(** [sub in s] holds exactly when [sub] occurs somewhere in [s]. *)
Lemma str_in_occurs (sub s : string) :
  str_in sub s = true <-> exists a b, s = a ++ sub ++ b.
Proof.
  induction s as [|c s IH].
  - cbn [str_in]. rewrite orb_false_r, prefix_app. split.
    + intros [b Hb]. now exists EmptyString, b.
    + intros [a [b Hab]]. destruct a; [now exists b | discriminate].
  - cbn [str_in]. rewrite orb_true_iff, prefix_app, IH. split.
    + intros [[b Hb] | [a [b Hab]]].
      * now exists EmptyString, b.
      * exists (String c a), b. simpl. now rewrite Hab.
    + intros [a [b Hab]]. destruct a as [|c' a].
      * left. now exists b.
      * right. exists a, b. simpl in Hab. congruence.
Qed.

Lemma app_empty_r (s : string) : s ++ "" = s.
Proof. induction s; simpl; congruence. Qed.


Lemma app_not_empty (a b : string) : a <> "" -> a ++ b <> "".
Proof. destruct a; simpl; congruence. Qed.

Lemma truthy_true (s : string) : truthy s = true <-> s <> "".
Proof.
  unfold truthy. rewrite negb_true_iff. destruct (String.eqb_spec s ""); split; congruence.
Qed.

End Text.

(** ** The locator *)

Section Locator.

Variable fs : FileSystem.
Variables search_str file_start : string.

Lemma find_app {A : Type} (f : A -> bool) (l1 l2 : list A) :
  find f (l1 ++ l2)%list
  = match find f l1 with
    | Some x => Some x
    | None => find f l2
    end.
Proof.
  induction l1 as [|a l1 IH]; simpl; [reflexivity|].
  destruct (f a); [reflexivity | exact IH].
Qed.

Lemma find_first {A : Type} (f : A -> bool) (before after : list A) (x : A) :
  (forall y, In y before -> f y = false) -> f x = true ->
  find f (before ++ x :: after)%list = Some x.
Proof.
  intros Hb Hx. induction before as [|a before IH]; simpl.
  - now rewrite Hx.
  - rewrite (Hb a (or_introl eq_refl)). apply IH.
    intros y Hy. apply Hb. now right.
Qed.

Lemma find_none_all {A : Type} (f : A -> bool) (l : list A) :
  (forall y, In y l -> f y = false) -> find f l = None.
Proof.
  induction l as [|a l IH]; simpl; intros H; [reflexivity|].
  rewrite (H a (or_introl eq_refl)). apply IH. intros y Hy. apply H. now right.
Qed.

(** The inner loop returns the first candidate among the files of
    the directory. *)
Lemma search_files_find (common : Common) (self : Psu) (dirpath : string)
  (files : list string) :
  search_files common search_str file_start dirpath files fs self
  = (Ok (option_map Spec.path_of
           (find (Spec.candidate fs search_str file_start) (map (pair dirpath) files))),
     self).
Proof.
  induction files as [|name rest IH]; cbn [search_files map find]; [reflexivity|].
  unfold Spec.candidate at 1. cbn [fst snd].
  destruct (startswith name file_start); cbn [andb]; [|exact IH].
  unfold bind, read_txt_file.
  change (Spec.path_of (dirpath, name)) with (join dirpath name).
  destruct (str_in search_str (Common.read_txt_file fs (join dirpath name)));
    [reflexivity | exact IH].
Qed.

(** The two loops return the first candidate of the enumeration. *)
Lemma search_walk_find (common : Common) (self : Psu)
  (w : list (string * list string * list string)) :
  search_walk common search_str file_start w fs self
  = (Ok (option_map Spec.path_of
           (find (Spec.candidate fs search_str file_start) (Spec.enumerate w))),
     self).
Proof.
  induction w as [|[[dirpath dirs] files] rest IH]; [reflexivity|].
  cbn [search_walk Spec.enumerate flat_map fst snd]. unfold bind.
  rewrite find_app, search_files_find.
  destruct (find _ (map (pair dirpath) files)); [reflexivity | exact IH].
Qed.

Lemma search_is_locate (directory : string) (self : Psu) :
  _search_file_by_contain directory search_str file_start fs self
  = (Ok (Spec.locate fs directory search_str file_start), self).
Proof.
  unfold _search_file_by_contain, bind, os_walk, attr.
  now rewrite search_walk_find.
Qed.

(** A walk of a path that names no directory yields nothing. *)
Lemma walk_absent (directory : string) :
  exists_ fs directory = false -> walk fs directory = [].
Proof.
  unfold exists_, walk. destruct (resolve fs directory); [discriminate | reflexivity].
Qed.

End Locator.

(** ** Paths that the walk yields *)

Section WalkPaths.

Lemma prefix_nonempty (c : ascii) (s : string) :
  String.prefix (String c "") s = true -> s <> "".
Proof. destruct s; simpl; [discriminate | congruence]. Qed.

Lemma join_nonempty (a b : string) : a <> "" -> join a b <> "".
Proof.
  intros Ha. unfold join, startswith.
  destruct (String.prefix "/" b) eqn:Hb.
  - now apply (prefix_nonempty "/"%char).
  - destruct (String.eqb a "" || endswith_char a sep); now apply app_not_empty.
Qed.

(** Induction over a tree of entries. *)
Lemma entry_tree_ind (P : entry -> Prop) :
  (forall n t, P (File n t)) ->
  (forall n es, Forall P es -> P (Dir n es)) ->
  forall e, P e.
Proof.
  intros HF HD. fix IH 1. intros [n t | n es].
  - apply HF.
  - apply HD. induction es as [|e es IHes]; constructor; [apply IH | exact IHes].
Qed.

Lemma walk_entry_nonempty (e : entry) :
  forall top, top <> "" ->
  Forall (fun t => fst (fst t) <> "") (walk_entry top e).
Proof.
  induction e as [n t | n es IH] using entry_tree_ind; intros top Htop; simpl.
  - constructor.
  - constructor; [exact Htop|].
    induction IH as [|e es He _ IHes]; [constructor|].
    destruct e as [n' t' | n' es']; [exact IHes|].
    apply Forall_app. split; [|exact IHes].
    apply He. now apply join_nonempty.
Qed.

Lemma walk_nonempty (fs : FileSystem) (top : string) :
  Forall (fun t => fst (fst t) <> "") (walk fs top).
Proof.
  unfold walk. destruct (resolve fs top) as [e|] eqn:He; [|constructor].
  apply walk_entry_nonempty. intros ->. discriminate.
Qed.

Lemma enumerate_nonempty (w : list (string * list string * list string)) :
  Forall (fun t => fst (fst t) <> "") w ->
  Forall (fun f => fst f <> "") (Spec.enumerate w).
Proof.
  induction 1 as [|[[d ds] fl] w Hd _ IH]; simpl; [constructor|].
  apply Forall_app. split; [|exact IH].
  simpl in Hd. clear -Hd. induction fl; simpl; constructor; auto.
Qed.

(** A located path is never the empty text, so [if path:] holds of it. *)
Lemma locate_truthy (fs : FileSystem) (directory search_str file_start p : string) :
  Spec.locate fs directory search_str file_start = Some p ->
  found (Some p) = Some p.
Proof.
  unfold Spec.locate. intros H.
  destruct (find _ _) as [f|] eqn:Hf; [|discriminate].
  injection H as <-. apply find_some in Hf. destruct Hf as [Hin _].
  pose proof (enumerate_nonempty _ (walk_nonempty fs directory)) as Hall.
  rewrite Forall_forall in Hall. specialize (Hall f Hin).
  unfold found. 
  assert (Ht : truthy (Spec.path_of f) = true)
    by (apply truthy_true; now apply join_nonempty).
  now rewrite Ht.
Qed.

End WalkPaths.

(** ** Joining and splitting paths *)

Section Paths.

Lemma split_sep_not_nil (p : string) : split_sep p <> [].
Proof.
  induction p as [|c p IH]; simpl; [discriminate|].
  destruct (Ascii.eqb c sep); [discriminate|].
  destruct (split_sep p); [contradiction | discriminate].
Qed.

Lemma split_sep_app (a b : string) :
  split_sep (a ++ String sep b) = (split_sep a ++ split_sep b)%list.
Proof.
  induction a as [|c a IH]; [reflexivity|].
  cbn [append split_sep]. rewrite IH.
  destruct (Ascii.eqb c sep); [reflexivity|].
  pose proof (split_sep_not_nil a) as Hn.
  destruct (split_sep a); [contradiction | reflexivity].
Qed.

Lemma split_sep_name (n : string) : has_sep n = false -> split_sep n = [n].
Proof.
  induction n as [|c n IH]; [reflexivity|].
  cbn [has_sep split_sep]. intros H. apply orb_false_iff in H. destruct H as [Hc Hn].
  rewrite Hc, (IH Hn). reflexivity.
Qed.

Lemma rsplit_sep_name (n : string) : has_sep n = false -> rsplit_sep n = ("", n).
Proof.
  induction n as [|c n IH]; [reflexivity|].
  cbn [has_sep rsplit_sep]. intros H. apply orb_false_iff in H. destruct H as [Hc Hn].
  now rewrite (IH Hn), Hc.
Qed.

Lemma rsplit_sep_app (a n : string) :
  has_sep n = false -> rsplit_sep (a ++ String sep n) = (a ++ String sep "", n).
Proof.
  intros Hn. induction a as [|c a IH].
  - cbn [append rsplit_sep]. rewrite (rsplit_sep_name n Hn). reflexivity.
  - cbn [append rsplit_sep]. rewrite IH. now destruct a.
Qed.

Lemma endswith_sep_app (d : string) :
  endswith_char d sep = true -> exists d', d = d' ++ String sep "".
Proof.
  induction d as [|c d IH]; [discriminate|].
  cbn [endswith_char]. destruct d as [|c' d].
  - intros H. apply Ascii.eqb_eq in H. subst c. now exists "".
  - intros H. destruct (IH H) as [d' Hd']. exists (String c d'). simpl. now rewrite <- Hd'.
Qed.

Lemma app_sep_assoc (a b : string) : (a ++ String sep "") ++ b = a ++ String sep b.
Proof. induction a; simpl; congruence. Qed.

Lemma name_not_absolute (n : string) : has_sep n = false -> startswith n "/" = false.
Proof.
  unfold startswith. destruct n as [|c n]; [reflexivity|].
  cbn [has_sep]. intros H. apply orb_false_iff in H. destruct H as [Hc _].
  cbn [String.prefix]. unfold sep in Hc.
  destruct (Ascii.ascii_dec "/" c) as [<-|Hne]; [|reflexivity].
  now rewrite Ascii.eqb_refl in Hc.
Qed.

(** [os.path.join] of a directory and a name, as text. *)
Lemma join_name (d n : string) :
  has_sep n = false ->
  join d n = n /\ d = ""
  \/ (exists d', d = d' ++ String sep "" /\ join d n = d' ++ String sep n)
  \/ (d <> "" /\ endswith_char d sep = false /\ join d n = d ++ String sep n).
Proof.
  intros Hn. unfold join. rewrite (name_not_absolute n Hn).
  destruct (String.eqb_spec d "") as [->|Hd]; [now left|]. right.
  cbn [orb]. destruct (endswith_char d sep) eqn:He.
  - left. destruct (endswith_sep_app d He) as [d' ->]. exists d'.
    split; [reflexivity | apply app_sep_assoc].
  - right. auto.
Qed.

Lemma basename_join (d n : string) : has_sep n = false -> basename (join d n) = n.
Proof.
  intros Hn. unfold basename.
  destruct (join_name d n Hn) as [[-> _] | [[d' [_ ->]] | [_ [_ ->]]]].
  - now rewrite rsplit_sep_name.
  - now rewrite rsplit_sep_app.
  - now rewrite rsplit_sep_app.
Qed.

Lemma rstrip_sep_app (d : string) : rstrip_sep (d ++ String sep "") = rstrip_sep d.
Proof.
  induction d as [|c d IH]; [reflexivity|].
  cbn [append rstrip_sep]. now rewrite IH.
Qed.

Lemma rstrip_sep_id (d : string) : endswith_char d sep = false -> rstrip_sep d = d.
Proof.
  induction d as [|c d IH]; [reflexivity|].
  cbn [endswith_char rstrip_sep]. destruct d as [|c' d].
  - intros ->. reflexivity.
  - intros H. rewrite (IH H). reflexivity.
Qed.

Lemma all_sep_app (d : string) : all_sep (d ++ String sep "") = all_sep d.
Proof.
  induction d as [|c d IH]; [reflexivity|].
  cbn [append all_sep]. now rewrite IH.
Qed.

Lemma all_sep_ends (d : string) : d <> "" -> endswith_char d sep = false -> all_sep d = false.
Proof.
  induction d as [|c d IH]; [congruence|]. intros _.
  cbn [endswith_char all_sep]. destruct d as [|c' d].
  - intros ->. reflexivity.
  - intros H. rewrite IH; [apply andb_false_r | discriminate | exact H].
Qed.

Lemma dirname_join (d n : string) :
  has_sep n = false -> d <> "" -> endswith_char d sep = false ->
  dirname (join d n) = d.
Proof.
  intros Hn Hd He. unfold dirname.
  destruct (join_name d n Hn) as [[_ ->] | [[d' [-> _]] | [_ [_ ->]]]].
  - contradiction.
  - exfalso. clear -He. induction d' as [|c d' IH]; [discriminate|].
    apply IH. cbn [append endswith_char] in He. now destruct d'.
  - rewrite rsplit_sep_app by exact Hn. cbn [fst].
    rewrite all_sep_app, (all_sep_ends d Hd He), rstrip_sep_app, (rstrip_sep_id d He).
    now destruct d.
Qed.

End Paths.

(** ** The walk and the resolution of paths agree *)

Section Coherence.

Lemma proper_name_parts (n : string) :
  proper_name n = true ->
  String.eqb n "" = false /\ String.eqb n "." = false
  /\ String.eqb n ".." = false /\ has_sep n = false.
Proof.
  unfold proper_name. rewrite !andb_true_iff, !negb_true_iff. tauto.
Qed.

Lemma well_formed_contents (e : entry) : well_formed e = true -> contents_ok e = true.
Proof.
  destruct e as [n t | n es]; [reflexivity|].
  cbn [well_formed contents_ok]. rewrite !andb_true_iff. intros [[_ Hu] Ha].
  split; [exact Hu|]. clear Hu.
  induction es as [|x es IH]; [reflexivity|].
  apply andb_true_iff in Ha. destruct Ha as [Hx Ha].
  cbn [forallb]. now rewrite Hx, IH.
Qed.

Lemma lookup_in (n : string) (es : list entry) (e : entry) :
  lookup n es = Some e -> In e es /\ name_of e = n.
Proof.
  induction es as [|x es IH]; [discriminate|].
  cbn [lookup]. destruct (String.eqb_spec (name_of x) n) as [Hx|Hx].
  - intros H. injection H as <-. split; [now left | exact Hx].
  - intros H. destruct (IH H) as [Hin Hn]. split; [now right | exact Hn].
Qed.

Lemma lookup_unique (es : list entry) (e : entry) :
  unique_names es = true -> In e es -> lookup (name_of e) es = Some e.
Proof.
  induction es as [|x es IH]; [contradiction|].
  cbn [unique_names lookup]. rewrite andb_true_iff, negb_true_iff.
  intros [Hx Hu] [-> | Hin].
  - now rewrite String.eqb_refl.
  - destruct (String.eqb_spec (name_of x) (name_of e)) as [Heq|_]; [|now apply IH].
    exfalso. assert (Ht : existsb (fun e' => String.eqb (name_of e') (name_of x)) es = true).
    { apply existsb_exists. exists e. split; [exact Hin|]. rewrite Heq. apply String.eqb_refl. }
    congruence.
Qed.

Lemma resolve_from_name (n : string) :
  proper_name n = true ->
  forall cs stack cur,
    resolve_from stack cur (cs ++ [n])
    = match resolve_from stack cur cs with
      | Some (Dir _ es) => lookup n es
      | _ => None
      end.
Proof.
  intros Hn. destruct (proper_name_parts n Hn) as (H0 & H1 & H2 & _).
  induction cs as [|c cs IH]; intros stack cur.
  - cbn [app resolve_from]. destruct cur as [nm t | nm es]; [reflexivity|].
    rewrite H0, H1, H2. cbn [orb]. now destruct (lookup n es).
  - cbn [app resolve_from]. destruct cur as [nm t | nm es]; [reflexivity|].
    destruct (String.eqb c "" || String.eqb c "."); [apply IH|].
    destruct (String.eqb c ".."); [destruct stack; apply IH|].
    destruct (lookup c es); [apply IH | reflexivity].
Qed.

Lemma resolve_from_trailing :
  forall cs stack cur,
    resolve_from stack cur (cs ++ [""])
    = match resolve_from stack cur cs with
      | Some (Dir nm es) => Some (Dir nm es)
      | _ => None
      end.
Proof.
  induction cs as [|c cs IH]; intros stack cur.
  - cbn [app resolve_from]. now destruct cur.
  - cbn [app resolve_from]. destruct cur as [nm t | nm es]; [reflexivity|].
    destruct (String.eqb c "" || String.eqb c "."); [apply IH|].
    destruct (String.eqb c ".."); [destruct stack; apply IH|].
    destruct (lookup c es); [apply IH | reflexivity].
Qed.

Lemma resolve_from_ok :
  forall cs stack cur e,
    contents_ok cur = true ->
    Forall (fun x => contents_ok x = true) stack ->
    resolve_from stack cur cs = Some e ->
    contents_ok e = true.
Proof.
  induction cs as [|c cs IH]; intros stack cur e Hc Hs.
  - cbn [resolve_from]. now intros [= <-].
  - cbn [resolve_from]. destruct cur as [nm t | nm es]; [discriminate|].
    destruct (String.eqb c "" || String.eqb c "."); [now apply IH|].
    destruct (String.eqb c "..").
    + destruct stack as [|p st]; [now apply IH|].
      apply IH; [exact (Forall_inv Hs) | exact (Forall_inv_tail Hs)].
    + destruct (lookup c es) as [x|] eqn:Hl; [|discriminate].
      apply IH; [|now constructor].
      apply well_formed_contents.
      cbn [contents_ok] in Hc. apply andb_true_iff in Hc. destruct Hc as [_ Ha].
      rewrite forallb_forall in Ha. apply Ha. now apply (lookup_in c).
Qed.

Variable fs : FileSystem.
Hypothesis Hfs : well_formed_fs fs = true.

Lemma resolve_ok (path : string) (e : entry) :
  resolve fs path = Some e -> contents_ok e = true.
Proof.
  unfold resolve. destruct path; [discriminate|].
  apply resolve_from_ok; [exact Hfs | constructor].
Qed.

Lemma resolve_nonempty (path : string) :
  path <> "" -> resolve fs path = resolve_from [] (Dir "" fs) (split_sep path).
Proof. destruct path; [congruence | reflexivity]. Qed.

(** The entry of a name in a directory is found at the joined path. *)
Lemma resolve_join (d n nm : string) (es : list entry) (e : entry) :
  proper_name n = true ->
  resolve fs d = Some (Dir nm es) ->
  lookup n es = Some e ->
  resolve fs (join d n) = Some e.
Proof.
  intros Hn Hd Hl. destruct (proper_name_parts n Hn) as (_ & _ & _ & Hs).
  destruct (join_name d n Hs) as [[_ ->] | [[d' [-> ->]] | [Hne [_ ->]]]].
  - discriminate.
  - rewrite resolve_nonempty in Hd by (now destruct d').
    rewrite split_sep_app in Hd. change (split_sep "") with [""] in Hd.
    rewrite resolve_from_trailing in Hd.
    rewrite resolve_nonempty by (now destruct d').
    rewrite split_sep_app, (split_sep_name n Hs), (resolve_from_name n Hn).
    destruct (resolve_from [] (Dir "" fs) (split_sep d')) as [[?|? ?]|];
      try discriminate. injection Hd as -> ->. exact Hl.
  - rewrite resolve_nonempty in Hd by exact Hne.
    rewrite resolve_nonempty by (now destruct d).
    rewrite split_sep_app, (split_sep_name n Hs), (resolve_from_name n Hn).
    now rewrite Hd.
Qed.

Lemma contents_parts (nm : string) (es : list entry) :
  contents_ok (Dir nm es) = true ->
  unique_names es = true /\ forall x, In x es -> well_formed x = true.
Proof.
  cbn [contents_ok]. rewrite andb_true_iff, forallb_forall. tauto.
Qed.

(** Every directory that the walk yields is a directory of the tree,
    reached by the path it is yielded with, and its files are listed. *)
Lemma walk_entry_listed (e : entry) :
  forall top,
    resolve fs top = Some e ->
    Forall (fun t => exists nm es,
                resolve fs (fst (fst t)) = Some (Dir nm es)
                /\ snd t = filenames es)
           (walk_entry top e).
Proof.
  induction e as [n t | n es IH] using entry_tree_ind; intros top Htop;
    cbn [walk_entry]; constructor.
  - exists n, es. now split.
  - destruct (contents_parts n es (resolve_ok top _ Htop)) as [Hu Hw].
    rewrite Forall_forall in IH.
    assert (Hsub : forall l, incl l es ->
              Forall (fun t => exists nm es0,
                          resolve fs (fst (fst t)) = Some (Dir nm es0)
                          /\ snd t = filenames es0)
                ((fix subdirs (l : list entry) :=
                    match l with
                    | [] => []
                    | File _ _ :: r => subdirs r
                    | (Dir n0 _) as d :: r => (walk_entry (join top n0) d ++ subdirs r)%list
                    end) l)).
    { induction l as [|x l IHl]; intros Hincl; [constructor|].
      assert (Hx : In x es) by (apply Hincl; now left).
      assert (Hl : incl l es) by (intros y Hy; apply Hincl; now right).
      destruct x as [n' t' | n' es']; [now apply IHl|].
      apply Forall_app. split; [|now apply IHl].
      apply (IH _ Hx). apply (resolve_join top n' n es).
      - specialize (Hw _ Hx). cbn [well_formed] in Hw.
        now rewrite !andb_true_iff in Hw.
      - exact Htop.
      - exact (lookup_unique es _ Hu Hx). }
    apply Hsub. apply incl_refl.
Qed.

Lemma filenames_in (n : string) (es : list entry) :
  In n (filenames es) -> exists text, In (File n text) es.
Proof.
  unfold filenames. rewrite in_map_iff. intros [x [Hx Hin]].
  apply filter_In in Hin. destruct Hin as [Hin Hf].
  destruct x as [n' t | n' es']; [|discriminate]. simpl in Hx. subst n'. now exists t.
Qed.

(** A file that the walk enumerates is a file of the directory it is
    listed under; the reader returns its text at the joined path, of
    which its name is the base name. *)
Lemma walk_reads_listed (top d n : string) :
  In (d, n) (Spec.enumerate (walk fs top)) ->
  exists nm es text,
    resolve fs d = Some (Dir nm es)
    /\ In (File n text) es
    /\ Common.read_txt_file fs (join d n) = text
    /\ basename (join d n) = n.
Proof.
  unfold walk. destruct (resolve fs top) as [e|] eqn:He; [|contradiction].
  pose proof (walk_entry_listed e top He) as Hall. rewrite Forall_forall in Hall.
  unfold Spec.enumerate. rewrite in_flat_map. intros [[[d' ds] fl] [Ht Hin]].
  cbn [fst snd] in Hin. apply in_map_iff in Hin. destruct Hin as [n' [Heq Hn']].
  injection Heq as -> ->.
  destruct (Hall _ Ht) as [nm [es [Hd Hfl]]]. cbn [fst snd] in Hd, Hfl. subst fl.
  destruct (filenames_in n es Hn') as [text Hf].
  destruct (contents_parts nm es (resolve_ok d _ Hd)) as [Hu Hw].
  pose proof (Hw _ Hf) as Hp. cbn [well_formed] in Hp.
  exists nm, es, text. split; [exact Hd|]. split; [exact Hf|]. split.
  - unfold Common.read_txt_file.
    now rewrite (resolve_join d n nm es (File n text) Hp Hd (lookup_unique es _ Hu Hf)).
  - apply basename_join. now destruct (proper_name_parts n Hp) as (_ & _ & _ & Hs).
Qed.

End Coherence.

Section Trailing.

Lemma endswith_char_app (a b : string) (c : ascii) :
  b <> "" -> endswith_char (a ++ b) c = endswith_char b c.
Proof.
  intros Hb. induction a as [|x a IH]; [reflexivity|].
  cbn [append endswith_char]. rewrite IH.
  destruct (a ++ b) eqn:Hab; [|reflexivity].
  destruct a; [simpl in Hab; congruence | discriminate].
Qed.

Lemma endswith_sep_name (n : string) : has_sep n = false -> endswith_char n sep = false.
Proof.
  induction n as [|c n IH]; [reflexivity|].
  cbn [has_sep endswith_char]. intros H. apply orb_false_iff in H. destruct H as [Hc Hn].
  destruct n; [exact Hc | now apply IH].
Qed.

Lemma join_no_trailing (d n : string) :
  proper_name n = true -> endswith_char (join d n) sep = false.
Proof.
  intros Hn. destruct (proper_name_parts n Hn) as (H0 & _ & _ & Hs).
  assert (Hne : n <> "") by (intros ->; discriminate).
  destruct (join_name d n Hs) as [[-> _] | [[d' [_ ->]] | [_ [_ ->]]]].
  - now apply endswith_sep_name.
  - change (d' ++ String sep n) with (d' ++ (String sep n)).
    rewrite endswith_char_app by discriminate.
    cbn [endswith_char]. destruct n; [congruence | now apply (endswith_sep_name (String a n))].
  - rewrite endswith_char_app by discriminate.
    cbn [endswith_char]. destruct n; [congruence | now apply (endswith_sep_name (String a n))].
Qed.

Variable fs : FileSystem.
Hypothesis Hfs : well_formed_fs fs = true.

Lemma walk_entry_no_trailing (e : entry) :
  forall top,
    resolve fs top = Some e ->
    endswith_char top sep = false ->
    Forall (fun t => endswith_char (fst (fst t)) sep = false) (walk_entry top e).
Proof.
  induction e as [n t | n es IH] using entry_tree_ind; intros top Htop Hend;
    cbn [walk_entry]; constructor; [exact Hend|].
  destruct (contents_parts n es (resolve_ok fs Hfs top _ Htop)) as [Hu Hw].
  rewrite Forall_forall in IH.
  assert (Hsub : forall l, incl l es ->
            Forall (fun t => endswith_char (fst (fst t)) sep = false)
              ((fix subdirs (l : list entry) :=
                  match l with
                  | [] => []
                  | File _ _ :: r => subdirs r
                  | (Dir n0 _) as d :: r => (walk_entry (join top n0) d ++ subdirs r)%list
                  end) l)).
  { induction l as [|x l IHl]; intros Hincl; [constructor|].
    assert (Hx : In x es) by (apply Hincl; now left).
    assert (Hl : incl l es) by (intros y Hy; apply Hincl; now right).
    destruct x as [n' t' | n' es']; [now apply IHl|].
    assert (Hp : proper_name n' = true).
    { specialize (Hw _ Hx). cbn [well_formed] in Hw. now rewrite !andb_true_iff in Hw. }
    apply Forall_app. split; [|now apply IHl].
    apply (IH _ Hx).
    - exact (resolve_join fs top n' n es _ Hp Htop (lookup_unique es _ Hu Hx)).
    - now apply join_no_trailing. }
  apply Hsub. apply incl_refl.
Qed.

(** Under a directory path without a trailing separator, the joined
    path of an enumerated file splits back into the directory and the
    name. *)
Lemma walk_splits_back (top d n : string) :
  endswith_char top sep = false ->
  In (d, n) (Spec.enumerate (walk fs top)) ->
  dirname (join d n) = d /\ basename (join d n) = n.
Proof.
  intros Hend Hin.
  destruct (walk_reads_listed fs Hfs top d n Hin) as (nm & es & text & Hd & Hf & _ & Hb).
  split; [|exact Hb].
  destruct (contents_parts nm es (resolve_ok fs Hfs d _ Hd)) as [_ Hw].
  pose proof (Hw _ Hf) as Hp. cbn [well_formed] in Hp.
  destruct (proper_name_parts n Hp) as (_ & _ & _ & Hs).
  apply dirname_join; [exact Hs | intros ->; discriminate |].
  revert Hin. unfold walk. destruct (resolve fs top) as [e|] eqn:He; [|contradiction].
  pose proof (walk_entry_no_trailing e top He Hend) as Hall. rewrite Forall_forall in Hall.
  unfold Spec.enumerate. rewrite in_flat_map. intros [[[d' ds] fl] [Ht Hin]].
  cbn [fst snd] in Hin. apply in_map_iff in Hin. destruct Hin as [n' [Heq _]].
  injection Heq as -> ->. exact (Hall _ Ht).
Qed.

End Trailing.

(** A located path is an enumerated file with the prefix in its name
    and the label in its own text, and it splits back into the
    directory and the name of that file. *)
Lemma locate_listed (fs : FileSystem) (top search_str file_start p : string) :
  well_formed_fs fs = true ->
  endswith_char top sep = false ->
  Spec.locate fs top search_str file_start = Some p ->
  exists d n text,
    In (d, n) (Spec.enumerate (walk fs top))
    /\ Spec.holds fs d n text
    /\ startswith n file_start = true
    /\ str_in search_str text = true
    /\ p = join d n /\ dirname p = d /\ basename p = n.
Proof.
  intros Hfs Hend. unfold Spec.locate.
  destruct (find _ _) as [[d n]|] eqn:Hf; [|discriminate].
  intros H. injection H as <-. apply find_some in Hf. destruct Hf as [Hin Hc].
  destruct (walk_reads_listed fs Hfs top d n Hin) as (nm & es & text & Hd & Hfile & Hr & _).
  destruct (walk_splits_back fs Hfs top d n Hend Hin) as [Hdir Hbase].
  unfold Spec.candidate, Spec.path_of in Hc. cbn [fst snd] in Hc.
  rewrite Hr in Hc. apply andb_true_iff in Hc. destruct Hc as [Hs Hi].
  exists d, n, text. unfold Spec.holds, Spec.path_of. cbn [fst snd]. eauto 10.
Qed.

(** C1.  Whatever the directory, the label and the prefix, the locator
    returns the path of the first enumerated file whose name starts
    with the prefix and whose text contains the label; when no
    enumerated file is such a file, and when the directory does not
    exist, it returns [None]; it never raises.  In a well-formed tree
    the text so read is the text of the enumerated file itself, and
    the name is the base name of the returned path. *)
Theorem search_returns_first_candidate
  (fs : FileSystem) (self : Psu) (directory search_str file_start : string) :
  let r := _search_file_by_contain directory search_str file_start fs self in
  let cand := Spec.candidate fs search_str file_start in
  (forall before f after,
      Spec.enumerate (walk fs directory) = (before ++ f :: after)%list ->
      (forall g, In g before -> cand g = false) ->
      cand f = true ->
      r = (Ok (Some (join (fst f) (snd f))), self))
  /\ ((forall g, In g (Spec.enumerate (walk fs directory)) -> cand g = false) ->
      r = (Ok None, self))
  /\ (exists_ fs directory = false -> r = (Ok None, self))
  /\ (well_formed_fs fs = true ->
      forall d n,
        In (d, n) (Spec.enumerate (walk fs directory)) ->
        exists text,
          Spec.holds fs d n text
          /\ Common.read_txt_file fs (join d n) = text
          /\ basename (join d n) = n).
Proof.
  intros r cand. subst r cand. rewrite search_is_locate. unfold Spec.locate.
  split; [|split; [|split]].
  - intros before f after Hw Hb Hf. rewrite Hw.
    now rewrite (find_first _ before after f Hb Hf).
  - intros Hn. now rewrite (find_none_all _ _ Hn).
  - intros Ha. now rewrite (walk_absent fs directory Ha).
  - intros Hfs d n Hin.
    destruct (walk_reads_listed fs Hfs directory d n Hin)
      as (nm & es & text & Hd & Hf & Hr & Hb).
    exists text. split; [now exists nm, es | now split].
Qed.


(** ** Numbers read from text *)

Section Numbers.

Lemma digit_value_nonneg (c : ascii) : is_decimal c = true -> 0 <= digit_value c.
Proof.
  unfold is_decimal, digit_value. cbv zeta. intros H.
  apply andb_true_iff in H. destruct H as [H _]. apply Z.leb_le in H. lia.
Qed.

Lemma digits_run_nonneg (s : string) :
  forall acc k, 0 <= acc -> 0 <= fst (fst (digits_run acc k s)).
Proof.
  induction s as [|c s IH]; intros acc k Hacc; cbn [digits_run]; [exact Hacc|].
  destruct (is_decimal c) eqn:Hc; [|exact Hacc].
  apply IH. pose proof (digit_value_nonneg c Hc). lia.
Qed.

(** Text that [int] accepts is text that [float] accepts, as the same
    number: the float nearest to the integer, a zero keeping the sign
    that was written. *)
Lemma float_of_int_text (s : string) (n : Z) :
  int_of_str s = Ok n ->
  exists v, float_of_str s = Ok v
            /\ (v = float_of_int n \/ (n = 0 /\ exists sg, v = S754_zero sg)).
Proof.
  unfold int_of_str, float_of_str.
  destruct (drop_underscores None (strip s)) as [t|]; [|discriminate].
  destruct (sign_of t) as [neg body].
  unfold parse_number.
  pose proof (digits_run_nonneg body 0 0 (Z.le_refl 0)) as Hnn.
  destruct (digits_run 0 0 body) as [[m k] rest]. simpl in Hnn.
  destruct rest; [|discriminate].
  rewrite Z.add_0_r. destruct (0 <? k); [|discriminate].
  intros H. injection H as <-. simpl.
  exists (float_of_decimal neg m 0). split; [reflexivity|].
  destruct m as [|p|p]; [right | left | lia].
  - split; [now destruct neg | now exists neg].
  - unfold float_of_decimal, float_of_int. simpl (0 <=? 0).
    cbv iota. rewrite Z.pow_0_r, Z.mul_1_r. now destruct neg.
Qed.

Lemma scaled_same_number (s : string) (n scale : Z) :
  (exists m e, float_of_int scale = S754_finite false m e) ->
  int_of_str s = Ok n ->
  exists v, float_of_str s = Ok v
            /\ Spec.same_number (truediv v (float_of_int scale)) (Spec.scaled n scale).
Proof.
  intros [m [e Hs]] Hn. destruct (float_of_int_text s n Hn) as [v [Hv Hc]].
  exists v. split; [exact Hv|].
  destruct Hc as [-> | [-> [sg ->]]]; [now left | right].
  unfold Spec.scaled. rewrite Hs. simpl. eauto.
Qed.

Lemma thousand_finite : exists m e, float_of_int 1000 = S754_finite false m e.
Proof. now eexists _, _. Qed.

Lemma million_finite : exists m e, float_of_int 1000000 = S754_finite false m e.
Proof. now eexists _, _. Qed.

End Numbers.

(** ** The getters, call by call *)

Section Getters.

Variable fs : FileSystem.
Variable self : Psu.

Ltac located H :=
  unfold bind, attr; rewrite search_is_locate, H;
  try rewrite (locate_truthy _ _ _ _ _ H);
  unfold Spec.reading, Spec.companion, lift, read_txt_file, os_path_exists; cbn -[float_of_str float_of_int truediv literal Common.read_txt_file exists_ join dirname basename].

Lemma get_voltage_located (p : string) :
  Spec.locate fs (hwmon_path self) "vout1" "in" = Some p ->
  get_voltage fs self = Spec.reading fs self p "in" "_input" 1000.
Proof.
  intros H. unfold get_voltage. located H.
  now destruct (float_of_str _).
Qed.

Lemma get_current_located (p : string) :
  Spec.locate fs (hwmon_path self) "iout1" "cur" = Some p ->
  get_current fs self = Spec.reading fs self p "curr" "_input" 1000.
Proof.
  intros H. unfold get_current. located H.
  now destruct (float_of_str _).
Qed.

Lemma get_power_located (p : string) :
  Spec.locate fs (hwmon_path self) "pout1" "power" = Some p ->
  get_power fs self = Spec.reading fs self p "power" "_input" 1000000.
Proof.
  intros H. unfold get_power. located H.
  now destruct (float_of_str _).
Qed.

Lemma get_temperature_located (p : string) :
  Spec.locate fs (hwmon_path self) "vout1" "in" = Some p ->
  get_temperature fs self
  = match Spec.reading fs self p "temp" "_input" 1000 with
    | (Ok v, s) => (Ok (Some v), s)
    | (Raise e, s) => (Raise e, s)
    end.
Proof.
  intros H. unfold get_temperature. located H.
  now destruct (float_of_str _).
Qed.

Lemma get_temperature_high_threshold_located (p : string) :
  Spec.locate fs (hwmon_path self) "vout1" "in" = Some p ->
  get_temperature_high_threshold fs self
  = match Spec.reading fs self p "temp" "_max" 1000 with
    | (Ok v, s) => (Ok (Some v), s)
    | (Raise e, s) => (Raise e, s)
    end.
Proof.
  intros H. unfold get_temperature_high_threshold. located H.
  now destruct (float_of_str _).
Qed.

Lemma get_voltage_high_threshold_located (p : string) :
  Spec.locate fs (hwmon_path self) "vout1" "in" = Some p ->
  get_voltage_high_threshold fs self
  = if exists_ fs (Spec.companion p "in" "_crit")
    then Spec.reading fs self p "in" "_crit" 1000
    else (Ok (literal "12.6"), self).
Proof.
  intros H. unfold get_voltage_high_threshold. located H.
  destruct (exists_ fs _); [|reflexivity].
  now destruct (float_of_str _).
Qed.

Lemma get_voltage_low_threshold_located (p : string) :
  Spec.locate fs (hwmon_path self) "vout1" "in" = Some p ->
  get_voltage_low_threshold fs self
  = if exists_ fs (Spec.companion p "in" "_lcrit")
    then Spec.reading fs self p "in" "_lcrit" 1000
    else (Ok (literal "11.4"), self).
Proof.
  intros H. unfold get_voltage_low_threshold. located H.
  destruct (exists_ fs _); [|reflexivity].
  now destruct (float_of_str _).
Qed.

(** The getters when the locator finds nothing. *)

Ltac unlocated H := unfold bind, attr; rewrite search_is_locate, H; reflexivity.

Lemma get_voltage_unlocated :
  Spec.locate fs (hwmon_path self) "vout1" "in" = None ->
  get_voltage fs self = (Ok (literal "0.0"), self).
Proof. intros H. unfold get_voltage. unlocated H. Qed.

Lemma get_current_unlocated :
  Spec.locate fs (hwmon_path self) "iout1" "cur" = None ->
  get_current fs self = (Ok (literal "0.0"), self).
Proof. intros H. unfold get_current. unlocated H. Qed.

Lemma get_power_unlocated :
  Spec.locate fs (hwmon_path self) "pout1" "power" = None ->
  get_power fs self = (Ok (literal "0.0"), self).
Proof. intros H. unfold get_power. unlocated H. Qed.

Lemma get_temperature_unlocated :
  Spec.locate fs (hwmon_path self) "vout1" "in" = None ->
  get_temperature fs self = (Ok None, self).
Proof. intros H. unfold get_temperature. unlocated H. Qed.

Lemma get_temperature_high_threshold_unlocated :
  Spec.locate fs (hwmon_path self) "vout1" "in" = None ->
  get_temperature_high_threshold fs self = (Ok None, self).
Proof. intros H. unfold get_temperature_high_threshold. unlocated H. Qed.

Lemma get_voltage_high_threshold_unlocated :
  Spec.locate fs (hwmon_path self) "vout1" "in" = None ->
  get_voltage_high_threshold fs self = (Ok (literal "12.6"), self).
Proof. intros H. unfold get_voltage_high_threshold. unlocated H. Qed.

Lemma get_voltage_low_threshold_unlocated :
  Spec.locate fs (hwmon_path self) "vout1" "in" = None ->
  get_voltage_low_threshold fs self = (Ok (literal "11.4"), self).
Proof. intros H. unfold get_voltage_low_threshold. unlocated H. Qed.

(** A reading of integer text is the integer, scaled. *)
Lemma reading_scaled (p pre suf : string) (scale n : Z) :
  (exists m e, float_of_int scale = S754_finite false m e) ->
  int_of_str (Common.read_txt_file fs (Spec.companion p pre suf)) = Ok n ->
  exists v, Spec.reading fs self p pre suf scale = (Ok v, self)
            /\ Spec.same_number v (Spec.scaled n scale).
Proof.
  intros Hs Hn. destruct (scaled_same_number _ n scale Hs Hn) as [v [Hv Hsame]].
  unfold Spec.reading. rewrite Hv. eauto.
Qed.

(** A reading of a companion that does not exist raises. *)
Lemma reading_absent (p pre suf : string) (scale : Z) :
  exists_ fs (Spec.companion p pre suf) = false ->
  Spec.reading fs self p pre suf scale = (Raise ValueError, self).
Proof.
  unfold Spec.reading, exists_, Common.read_txt_file.
  destruct (resolve fs _); [discriminate | reflexivity].
Qed.

End Getters.

(** ** Readings *)

Lemma locate_some (fs : FileSystem) (directory search_str file_start : string) :
  (exists f, In f (Spec.enumerate (walk fs directory))
             /\ Spec.candidate fs search_str file_start f = true) ->
  exists p, Spec.locate fs directory search_str file_start = Some p.
Proof.
  intros [f [Hin Hc]]. unfold Spec.locate.
  destruct (find _ _) as [g|] eqn:Hg; [now eexists|].
  rewrite (find_none _ _ Hg f Hin) in Hc. discriminate.
Qed.

(** C2.  When some enumerated file has a name that starts with "in"
    and a text that contains "vout1", the locator returns a path, and
    [get_voltage] takes the digits of the base name of that path,
    reads [in{N}_input] in its directory and returns the integer it
    holds divided by 1000; for [in3_label] with 12500 in [in3_input]
    the result is 12.5.  In a well-formed tree the path is that of an
    enumerated file, and its directory and base name are the directory
    and the name under which the file is listed. *)
Theorem get_voltage_scales_companion (fs : FileSystem) (self : Psu) :
  (exists f, In f (Spec.enumerate (walk fs (hwmon_path self)))
             /\ Spec.candidate fs "vout1" "in" f = true) ->
  exists p,
    _search_file_by_contain (hwmon_path self) "vout1" "in" fs self = (Ok (Some p), self)
    /\ (forall n,
           int_of_str
             (Common.read_txt_file fs
                (join (dirname p) ("in" ++ filter_join isdigit (basename p) ++ "_input")))
           = Ok n ->
           exists v, get_voltage fs self = (Ok v, self)
                     /\ Spec.same_number v (Spec.scaled n 1000))
    /\ (basename p = "in3_label" ->
        Common.read_txt_file fs (join (dirname p) "in3_input") = "12500" ->
        get_voltage fs self = (Ok (literal "12.5"), self))
    /\ (well_formed_fs fs = true ->
        endswith_char (hwmon_path self) sep = false ->
        exists d n text,
          In (d, n) (Spec.enumerate (walk fs (hwmon_path self)))
          /\ Spec.holds fs d n text
          /\ startswith n "in" = true
          /\ str_in "vout1" text = true
          /\ p = join d n /\ dirname p = d /\ basename p = n).
Proof.
  intros Hex. destruct (locate_some _ _ _ _ Hex) as [p Hp].
  exists p. rewrite search_is_locate, Hp. split; [reflexivity|].
  rewrite (get_voltage_located fs self p Hp). split; [|split].
  - intros n Hn. now apply reading_scaled; [apply thousand_finite|].
  - intros Hb Hr. unfold Spec.reading, Spec.companion. rewrite Hb.
    change ("in" ++ filter_join isdigit "in3_label" ++ "_input") with "in3_input".
    rewrite Hr. reflexivity.
  - intros Hfs Hend. exact (locate_listed fs _ _ _ p Hfs Hend Hp).
Qed.

(** C3.  When some enumerated file has a name that starts with "power"
    and a text that contains "pout1", [get_power] reads
    [power{N}_input] next to the located file and returns the integer
    it holds divided by 1,000,000; for [power2_label] with 250500000
    in [power2_input] the result is 250.5.  In a well-formed tree the
    path is that of an enumerated file, and its directory and base
    name are the directory and the name under which the file is
    listed. *)
Theorem get_power_scales_companion (fs : FileSystem) (self : Psu) :
  (exists f, In f (Spec.enumerate (walk fs (hwmon_path self)))
             /\ Spec.candidate fs "pout1" "power" f = true) ->
  exists p,
    _search_file_by_contain (hwmon_path self) "pout1" "power" fs self = (Ok (Some p), self)
    /\ (forall n,
           int_of_str
             (Common.read_txt_file fs
                (join (dirname p) ("power" ++ filter_join isdigit (basename p) ++ "_input")))
           = Ok n ->
           exists v, get_power fs self = (Ok v, self)
                     /\ Spec.same_number v (Spec.scaled n 1000000))
    /\ (basename p = "power2_label" ->
        Common.read_txt_file fs (join (dirname p) "power2_input") = "250500000" ->
        get_power fs self = (Ok (literal "250.5"), self))
    /\ (well_formed_fs fs = true ->
        endswith_char (hwmon_path self) sep = false ->
        exists d n text,
          In (d, n) (Spec.enumerate (walk fs (hwmon_path self)))
          /\ Spec.holds fs d n text
          /\ startswith n "power" = true
          /\ str_in "pout1" text = true
          /\ p = join d n /\ dirname p = d /\ basename p = n).
Proof.
  intros Hex. destruct (locate_some _ _ _ _ Hex) as [p Hp].
  exists p. rewrite search_is_locate, Hp. split; [reflexivity|].
  rewrite (get_power_located fs self p Hp). split; [|split].
  - intros n Hn. now apply reading_scaled; [apply million_finite|].
  - intros Hb Hr. unfold Spec.reading, Spec.companion. rewrite Hb.
    change ("power" ++ filter_join isdigit "power2_label" ++ "_input") with "power2_input".
    rewrite Hr. reflexivity.
  - intros Hfs Hend. exact (locate_listed fs _ _ _ p Hfs Hend Hp).
Qed.

(** C4.  When the "vout1" label file is located and the threshold file
    derived from it does not exist, [get_voltage_high_threshold]
    returns 12.6 and [get_voltage_low_threshold] returns 11.4, whereas
    [get_voltage] reads its companion without such a check; with
    [in0_label] located, 0 in [in0_input] and no [in0_crit],
    [get_voltage] returns 0.0 and [get_voltage_high_threshold] 12.6. *)
Theorem voltage_thresholds_default (fs : FileSystem) (self : Psu) (p : string) :
  _search_file_by_contain (hwmon_path self) "vout1" "in" fs self = (Ok (Some p), self) ->
  (exists_ fs (join (dirname p) ("in" ++ filter_join isdigit (basename p) ++ "_crit")) = false ->
   get_voltage_high_threshold fs self = (Ok (literal "12.6"), self))
  /\ (exists_ fs (join (dirname p) ("in" ++ filter_join isdigit (basename p) ++ "_lcrit")) = false ->
      get_voltage_low_threshold fs self = (Ok (literal "11.4"), self))
  /\ (exists_ fs (join (dirname p) ("in" ++ filter_join isdigit (basename p) ++ "_input")) = false ->
      get_voltage fs self = (Raise ValueError, self))
  /\ (basename p = "in0_label" ->
      Common.read_txt_file fs (join (dirname p) "in0_input") = "0" ->
      exists_ fs (join (dirname p) "in0_crit") = false ->
      get_voltage fs self = (Ok (literal "0.0"), self)
      /\ get_voltage_high_threshold fs self = (Ok (literal "12.6"), self)).
Proof.
  rewrite search_is_locate. intros Hp. injection Hp as Hp.
  rewrite (get_voltage_high_threshold_located fs self p Hp).
  rewrite (get_voltage_low_threshold_located fs self p Hp).
  rewrite (get_voltage_located fs self p Hp).
  unfold Spec.companion. split; [|split; [|split]].
  - now intros ->.
  - now intros ->.
  - intros Ha. now apply reading_absent.
  - intros Hb Hr Ha. rewrite Hb. split.
    + unfold Spec.reading, Spec.companion. rewrite Hb.
      change ("in" ++ filter_join isdigit "in0_label" ++ "_input") with "in0_input".
      rewrite Hr. reflexivity.
    + change ("in" ++ filter_join isdigit "in0_label" ++ "_crit") with "in0_crit".
      now rewrite Ha.
Qed.

(** C5.  When the locator finds no label file, [get_voltage],
    [get_current] and [get_power] return 0.0 and [get_temperature]
    returns [None]. *)
Theorem defaults_when_nothing_located (fs : FileSystem) (self : Psu) :
  (_search_file_by_contain (hwmon_path self) "vout1" "in" fs self = (Ok None, self) ->
   get_voltage fs self = (Ok (literal "0.0"), self)
   /\ get_temperature fs self = (Ok None, self))
  /\ (_search_file_by_contain (hwmon_path self) "iout1" "cur" fs self = (Ok None, self) ->
      get_current fs self = (Ok (literal "0.0"), self))
  /\ (_search_file_by_contain (hwmon_path self) "pout1" "power" fs self = (Ok None, self) ->
      get_power fs self = (Ok (literal "0.0"), self)).
Proof.
  rewrite !search_is_locate.
  split; [|split]; intros H; injection H as Hn.
  - split; [now apply get_voltage_unlocated | now apply get_temperature_unlocated].
  - now apply get_current_unlocated.
  - now apply get_power_unlocated.
Qed.

(** ** Calls that leave the object as it is *)

Section Frame.

Lemma read_only_ret {A : Type} (a : A) : Spec.read_only (ret a).
Proof. now intros fs self. Qed.

Lemma read_only_lift {A : Type} (r : result A) : Spec.read_only (lift r).
Proof. now intros fs self. Qed.

Lemma read_only_attr {A : Type} (f : Psu -> A) : Spec.read_only (attr f).
Proof. now intros fs self. Qed.

Lemma read_only_read_txt_file (common : Common) (path : string) :
  Spec.read_only (read_txt_file common path).
Proof. now intros fs self. Qed.

Lemma read_only_os_path_exists (path : string) : Spec.read_only (os_path_exists path).
Proof. now intros fs self. Qed.

Lemma read_only_search (directory search_str file_start : string) :
  Spec.read_only (_search_file_by_contain directory search_str file_start).
Proof. intros fs self. now rewrite search_is_locate. Qed.

Lemma read_only_bind {A B : Type} (c : M A) (k : A -> M B) :
  Spec.read_only c -> (forall a, Spec.read_only (k a)) -> Spec.read_only (bind c k).
Proof.
  intros Hc Hk fs self. unfold bind. specialize (Hc fs self).
  destruct (c fs self) as [[a|e] self']; simpl in Hc; subst self'.
  - apply Hk.
  - reflexivity.
Qed.

Lemma read_only_if {A : Type} (b : bool) (c d : M A) :
  Spec.read_only c -> Spec.read_only d -> Spec.read_only (if b then c else d).
Proof. now destruct b. Qed.

Lemma read_only_found {A : Type} (o : option string) (k : string -> M A) (d : M A) :
  (forall p, Spec.read_only (k p)) -> Spec.read_only d ->
  Spec.read_only (match found o with Some p => k p | None => d end).
Proof. intros Hk Hd. now destruct (found o). Qed.

Ltac frame :=
  repeat first
    [ apply read_only_ret | apply read_only_lift | apply read_only_attr
    | apply read_only_read_txt_file | apply read_only_os_path_exists
    | apply read_only_search
    | apply read_only_bind; [|intro]
    | apply read_only_found; [intro|]
    | apply read_only_if ].

Lemma read_only_get_voltage : Spec.read_only get_voltage.
Proof. unfold get_voltage. frame. Qed.

Lemma read_only_get_current : Spec.read_only get_current.
Proof. unfold get_current. frame. Qed.

Lemma read_only_get_power : Spec.read_only get_power.
Proof. unfold get_power. frame. Qed.

Lemma read_only_get_status : Spec.read_only get_status.
Proof. unfold get_status. frame. Qed.

Lemma read_only_get_powergood_status : Spec.read_only get_powergood_status.
Proof. exact read_only_get_status. Qed.

Lemma read_only_get_name : Spec.read_only get_name.
Proof. unfold get_name. frame. Qed.

Lemma read_only_get_presence : Spec.read_only get_presence.
Proof. unfold get_presence. frame. Qed.

Lemma read_only_get_temperature : Spec.read_only get_temperature.
Proof. unfold get_temperature. frame. Qed.

Lemma read_only_get_temperature_high_threshold :
  Spec.read_only get_temperature_high_threshold.
Proof. unfold get_temperature_high_threshold. frame. Qed.

Lemma read_only_get_voltage_high_threshold : Spec.read_only get_voltage_high_threshold.
Proof. unfold get_voltage_high_threshold. frame. Qed.

Lemma read_only_get_voltage_low_threshold : Spec.read_only get_voltage_low_threshold.
Proof. unfold get_voltage_low_threshold. frame. Qed.

(** The two EEPROM getters store the decoder they build. *)
Lemma get_model_state (fs : FileSystem) (self : Psu) :
  snd (get_model fs self)
  = set__eeprom self
      (Eeprom.new fs (eeprom_addr self) PSU_EEPROM_FORMAT PSU_EEPROM_START_OFFSET).
Proof. reflexivity. Qed.

Lemma get_serial_state (fs : FileSystem) (self : Psu) :
  snd (get_serial fs self)
  = set__eeprom self
      (Eeprom.new fs (eeprom_addr self) PSU_EEPROM_FORMAT PSU_EEPROM_START_OFFSET).
Proof. reflexivity. Qed.

Lemma state_after_read_only (m : Spec.method) (fs : FileSystem) (self : Psu) :
  m <> Spec.get_model_ -> m <> Spec.get_serial_ -> Spec.state_after m fs self = self.
Proof.
  intros Hm Hs. destruct m; try congruence; simpl;
    first
      [ apply read_only_get_voltage | apply read_only_get_current
      | apply read_only_get_power | apply read_only_get_powergood_status
      | apply read_only_get_name | apply read_only_get_presence
      | apply read_only_get_status | apply read_only_get_temperature
      | apply read_only_get_temperature_high_threshold
      | apply read_only_get_voltage_high_threshold
      | apply read_only_get_voltage_low_threshold
      | reflexivity ].
Qed.

Lemma state_after_cases (m : Spec.method) (fs : FileSystem) (self : Psu) :
  Spec.state_after m fs self = self
  \/ Spec.state_after m fs self
     = set__eeprom self
         (Eeprom.new fs (eeprom_addr self) PSU_EEPROM_FORMAT PSU_EEPROM_START_OFFSET).
Proof.
  destruct m;
    try (left; apply state_after_read_only; discriminate);
    right; [apply get_model_state | apply get_serial_state].
Qed.

End Frame.

(** ** Objects *)

Section Objects.

Lemma init_cases (idx : Z) (self : Psu) :
  __init__ idx = Ok self ->
  (idx = 0 /\ self = Spec.psu0) \/ (idx = 1 /\ self = Spec.psu1).
Proof.
  intros H.
  destruct (Z.eq_dec idx 0) as [->|H0]; [left|].
  - split; [reflexivity|]. vm_compute in H. injection H as <-. reflexivity.
  - destruct (Z.eq_dec idx 1) as [->|H1]; [right|].
    + split; [reflexivity|]. vm_compute in H. injection H as <-. reflexivity.
    + exfalso. unfold __init__ in H. cbn [PSU_I2C_MAPPING dict_getitem] in H.
      apply Z.eqb_neq in H0, H1. rewrite Z.eqb_sym in H0. rewrite Z.eqb_sym in H1.
      rewrite H0, H1 in H. discriminate.
Qed.

Lemma same_but_eeprom_refl (a : Psu) : Spec.same_but_eeprom a a.
Proof. now repeat split. Qed.

Lemma same_but_eeprom_set (a b : Psu) (e : DeviceEEPROM) :
  Spec.same_but_eeprom a b -> Spec.same_but_eeprom (set__eeprom a e) b.
Proof. intros H. exact H. Qed.

Lemma state_after_same (m : Spec.method) (fs : FileSystem) (a b : Psu) :
  Spec.same_but_eeprom a b -> Spec.same_but_eeprom (Spec.state_after m fs a) b.
Proof.
  intros H. destruct (state_after_cases m fs a) as [-> | ->]; [exact H|].
  now apply same_but_eeprom_set.
Qed.

(** An object keeps the attributes with which it was constructed. *)
Lemma object_identity (idx : Z) (self : Psu) :
  Spec.object_of idx self ->
  (idx = 0 /\ Spec.same_but_eeprom self Spec.psu0)
  \/ (idx = 1 /\ Spec.same_but_eeprom self Spec.psu1).
Proof.
  induction 1 as [self Hinit | self m fs _ IH].
  - destruct (init_cases idx self Hinit) as [[-> ->] | [-> ->]];
      [left | right]; split; auto using same_but_eeprom_refl.
  - destruct IH as [[-> IH] | [-> IH]]; [left | right]; split;
      auto using state_after_same.
Qed.

End Objects.

(** ** Presence, status and name *)

Section Static.

Variable idx : Z.
Variable self : Psu.
Hypothesis Hobj : Spec.object_of idx self.

Lemma get_presence_flag (fs : FileSystem) :
  get_presence fs self = (Spec.flag fs (Spec.presence_file idx), self).
Proof.
  unfold get_presence, Spec.flag, bind, attr, lift, read_txt_file.
  destruct (object_identity idx self Hobj) as [[-> Hs] | [-> Hs]];
    destruct Hs as (_ & _ & Hi & Hp & _); rewrite Hi, Hp.
  - change (getitem ["R"; "L"] (index Spec.psu0)) with (Ok "R").
    cbn -[int or_zero Common.read_txt_file Z.eqb]. now destruct (int _).
  - change (getitem ["R"; "L"] (index Spec.psu1)) with (Ok "L").
    cbn -[int or_zero Common.read_txt_file Z.eqb]. now destruct (int _).
Qed.

Lemma get_status_flag (fs : FileSystem) :
  get_status fs self = (Spec.flag fs (Spec.status_file idx), self).
Proof.
  unfold get_status, Spec.flag, bind, attr, lift, read_txt_file.
  destruct (object_identity idx self Hobj) as [[-> Hs] | [-> Hs]];
    destruct Hs as (_ & _ & Hi & _ & Hp & _); rewrite Hi, Hp.
  - change (getitem ["R"; "L"] (index Spec.psu0)) with (Ok "R").
    cbn -[int or_zero Common.read_txt_file Z.eqb]. now destruct (int _).
  - change (getitem ["R"; "L"] (index Spec.psu1)) with (Ok "L").
    cbn -[int or_zero Common.read_txt_file Z.eqb]. now destruct (int _).
Qed.

Lemma get_name_value (fs : FileSystem) :
  get_name fs self = (Ok (if idx =? 0 then "PSU-R" else "PSU-L"), self).
Proof.
  unfold get_name, bind, attr, lift.
  destruct (object_identity idx self Hobj) as [[-> Hs] | [-> Hs]];
    destruct Hs as (_ & _ & Hi & _); now rewrite Hi.
Qed.

End Static.

Lemma flag_true (fs : FileSystem) (path : string) :
  Spec.flag fs path = Ok true <-> int_of_str (Common.read_txt_file fs path) = Ok 1.
Proof.
  unfold Spec.flag. destruct (Common.read_txt_file fs path) as [|c t] eqn:Ht.
  - cbn. split; discriminate.
  - cbn [or_zero int]. destruct (int_of_str (String c t)) as [n|e].
    + split; intros H; injection H as H.
      * apply Z.eqb_eq in H. now subst.
      * now subst.
    + split; discriminate.
Qed.

Lemma flag_absent (fs : FileSystem) (path : string) :
  exists_ fs path = false -> Spec.flag fs path = Ok false.
Proof.
  unfold Spec.flag, exists_, Common.read_txt_file.
  now destruct (resolve fs path).
Qed.

Lemma constructor_total (idx : Z) :
  idx = 0 \/ idx = 1 -> exists self, __init__ idx = Ok self.
Proof. intros [-> | ->]; now eexists. Qed.

(** C6.  For each of the two indices, [get_presence] returns [True]
    exactly when the text of the presence file of the slot is text
    that [int] takes to 1; when the file does not exist the text
    counts as 0 and the result is [False], as it is for the text 0. *)
Theorem get_presence_reads_slot_file (idx : Z) (self : Psu) (fs : FileSystem) :
  idx = 0 \/ idx = 1 ->
  Spec.object_of idx self ->
  (get_presence fs self = (Ok true, self)
   <-> int_of_str (Common.read_txt_file fs (Spec.presence_file idx)) = Ok 1)
  /\ (exists_ fs (Spec.presence_file idx) = false ->
      get_presence fs self = (Ok false, self))
  /\ (Common.read_txt_file fs (Spec.presence_file idx) = "0" ->
      get_presence fs self = (Ok false, self)).
Proof.
  intros _ Hobj. rewrite (get_presence_flag idx self Hobj fs).
  split; [|split].
  - rewrite <- flag_true. split; [intros H; now injection H | now intros ->].
  - intros Ha. now rewrite flag_absent.
  - intros Ht. unfold Spec.flag. now rewrite Ht.
Qed.

(** C9.  For each of the two indices an object can be constructed, and
    [get_name] returns on it the element of the list of names at the
    index, "PSU-R" for 0 and "PSU-L" for 1, whatever the files hold. *)
Theorem get_name_by_index (idx : Z) :
  idx = 0 \/ idx = 1 ->
  (exists self, __init__ idx = Ok self)
  /\ (forall self fs,
         Spec.object_of idx self ->
         get_name fs self = (getitem PSU_NAME_LIST idx, self)
         /\ getitem PSU_NAME_LIST idx = Ok (if idx =? 0 then "PSU-R" else "PSU-L")).
Proof.
  intros Hidx. split; [now apply constructor_total|].
  intros self fs Hobj. rewrite (get_name_value idx self Hobj fs).
  now destruct Hidx as [-> | ->].
Qed.

(** C10.  On every object and every file system,
    [get_powergood_status] returns what [get_status] returns, the
    same value or the same exception, and the same object; on an
    object of either index both tell whether the status file of the
    slot holds the integer 1. *)
Theorem get_powergood_status_is_get_status (fs : FileSystem) (self : Psu) :
  get_powergood_status fs self = get_status fs self
  /\ (forall idx,
         Spec.object_of idx self ->
         get_powergood_status fs self = (Spec.flag fs (Spec.status_file idx), self)
         /\ get_status fs self = (Spec.flag fs (Spec.status_file idx), self)).
Proof.
  split; [reflexivity|].
  intros idx Hobj. unfold get_powergood_status.
  split; apply (get_status_flag idx self Hobj fs).
Qed.

(** C7.  There is a state of the file system, with a label file that
    holds "vout1" and a companion input file whose text is not a
    number, in which [get_voltage] raises. *)
Theorem get_voltage_raises_on_malformed_text :
  exists fs self p,
    __init__ 0 = Ok self
    /\ _search_file_by_contain (hwmon_path self) "vout1" "in" fs self = (Ok (Some p), self)
    /\ exists_ fs (Spec.companion p "in" "_input") = true
    /\ float_of_str (Common.read_txt_file fs (Spec.companion p "in" "_input"))
       = Raise ValueError
    /\ get_voltage fs self = (Raise ValueError, self).
Proof.
  exists Spec.fs_malformed, Spec.psu0, (Spec.hwmon5 ++ "/in3_label").
  now vm_compute.
Qed.

(** ** What the calls store *)

(** C8 as stated fails: on a newly constructed object the attribute
    [_eeprom] is not set, and a call of [get_model] sets it. *)
Lemma get_model_assigns_eeprom :
  __init__ 0 = Ok Spec.psu0
  /\ _eeprom Spec.psu0 = None
  /\ _eeprom (snd (get_model Spec.fs_eeprom Spec.psu0)) <> None
  /\ ~ (forall m fs self, Spec.state_after m fs self = self).
Proof.
  split; [reflexivity|]. split; [reflexivity|]. split; [discriminate|].
  intros H. specialize (H Spec.get_model_ Spec.fs_eeprom Spec.psu0).
  apply (f_equal _eeprom) in H. discriminate H.
Qed.

(** C8, amended.  Every method other than [get_model] and [get_serial]
    returns the object with every attribute as it was; [get_model] and
    [get_serial] assign the decoder they build to [_eeprom] and leave
    every other attribute as it was. *)
Theorem calls_keep_all_but_eeprom (m : Spec.method) (fs : FileSystem) (self : Psu) :
  (m <> Spec.get_model_ -> m <> Spec.get_serial_ -> Spec.state_after m fs self = self)
  /\ (m = Spec.get_model_ \/ m = Spec.get_serial_ ->
      Spec.state_after m fs self
      = set__eeprom self
          (Eeprom.new fs (eeprom_addr self) PSU_EEPROM_FORMAT PSU_EEPROM_START_OFFSET))
  /\ Spec.same_but_eeprom (Spec.state_after m fs self) self.
Proof.
  split; [|split].
  - apply state_after_read_only.
  - intros [-> | ->]; [apply get_model_state | apply get_serial_state].
  - apply state_after_same, same_but_eeprom_refl.
Qed.

(** ** The properties on the sample states *)

Lemma search_returns_first_candidate_witness :
  _search_file_by_contain (hwmon_path Spec.psu0) "vout1" "in" Spec.fs_voltage Spec.psu0
  = (Ok (Some (Spec.hwmon5 ++ "/in3_label")), Spec.psu0)
  /\ _search_file_by_contain (hwmon_path Spec.psu0) "vout1" "in" Spec.fs_no_sensor Spec.psu0
     = (Ok None, Spec.psu0)
  /\ exists_ Spec.fs_voltage (hwmon_path Spec.psu1) = false
  /\ _search_file_by_contain (hwmon_path Spec.psu1) "vout1" "in" Spec.fs_voltage Spec.psu1
     = (Ok None, Spec.psu1)
  /\ well_formed_fs Spec.fs_voltage = true
  /\ exists text,
       Spec.holds Spec.fs_voltage Spec.hwmon5 "in3_label" text
       /\ Common.read_txt_file Spec.fs_voltage (join Spec.hwmon5 "in3_label") = text
       /\ basename (join Spec.hwmon5 "in3_label") = "in3_label".
Proof.
  pose proof (search_returns_first_candidate
                Spec.fs_voltage Spec.psu0 (hwmon_path Spec.psu0) "vout1" "in")
    as [Hfirst [_ [_ Hown]]].
  pose proof (search_returns_first_candidate
                Spec.fs_no_sensor Spec.psu0 (hwmon_path Spec.psu0) "vout1" "in")
    as [_ [Hnone _]].
  pose proof (search_returns_first_candidate
                Spec.fs_voltage Spec.psu1 (hwmon_path Spec.psu1) "vout1" "in")
    as [_ [_ [Habsent _]]].
  split; [|split; [|split; [|split; [|split]]]].
  - apply (Hfirst [(Spec.hwmon5, "in3_input")] (Spec.hwmon5, "in3_label") []).
    + reflexivity.
    + intros g [<- | []]. reflexivity.
    + reflexivity.
  - apply Hnone. intros g Hg. vm_compute in Hg. destruct Hg as [<- | []]. reflexivity.
  - reflexivity.
  - apply Habsent. reflexivity.
  - reflexivity.
  - apply Hown; [reflexivity|]. vm_compute. auto.
Defined.

Lemma get_voltage_scales_companion_witness :
  (exists f, In f (Spec.enumerate (walk Spec.fs_voltage (hwmon_path Spec.psu0)))
             /\ Spec.candidate Spec.fs_voltage "vout1" "in" f = true)
  /\ well_formed_fs Spec.fs_voltage = true
  /\ endswith_char (hwmon_path Spec.psu0) sep = false
  /\ get_voltage Spec.fs_voltage Spec.psu0 = (Ok (literal "12.5"), Spec.psu0)
  /\ (exists v, get_voltage Spec.fs_voltage Spec.psu0 = (Ok v, Spec.psu0)
                /\ Spec.same_number v (Spec.scaled 12500 1000))
  /\ dirname (Spec.hwmon5 ++ "/in3_label") = Spec.hwmon5.
Proof.
  assert (Hex : exists f,
             In f (Spec.enumerate (walk Spec.fs_voltage (hwmon_path Spec.psu0)))
             /\ Spec.candidate Spec.fs_voltage "vout1" "in" f = true).
  { exists (Spec.hwmon5, "in3_label"). split; [vm_compute; auto | reflexivity]. }
  split; [exact Hex|]. split; [reflexivity|]. split; [reflexivity|].
  destruct (get_voltage_scales_companion Spec.fs_voltage Spec.psu0 Hex)
    as [p [Hp [Hn [H Hlisted]]]].
  destruct (Hlisted eq_refl eq_refl) as (d & n & text & _ & _ & _ & _ & _ & Hd & _).
  vm_compute in Hp. injection Hp as <-.
  split; [apply H; reflexivity|]. split; [apply Hn; reflexivity | reflexivity].
Defined.

Lemma get_power_scales_companion_witness :
  (exists f, In f (Spec.enumerate (walk Spec.fs_power (hwmon_path Spec.psu0)))
             /\ Spec.candidate Spec.fs_power "pout1" "power" f = true)
  /\ well_formed_fs Spec.fs_power = true
  /\ endswith_char (hwmon_path Spec.psu0) sep = false
  /\ get_power Spec.fs_power Spec.psu0 = (Ok (literal "250.5"), Spec.psu0)
  /\ (exists v, get_power Spec.fs_power Spec.psu0 = (Ok v, Spec.psu0)
                /\ Spec.same_number v (Spec.scaled 250500000 1000000))
  /\ dirname (Spec.hwmon5 ++ "/power2_label") = Spec.hwmon5.
Proof.
  assert (Hex : exists f,
             In f (Spec.enumerate (walk Spec.fs_power (hwmon_path Spec.psu0)))
             /\ Spec.candidate Spec.fs_power "pout1" "power" f = true).
  { exists (Spec.hwmon5, "power2_label"). split; [vm_compute; auto | reflexivity]. }
  split; [exact Hex|]. split; [reflexivity|]. split; [reflexivity|].
  destruct (get_power_scales_companion Spec.fs_power Spec.psu0 Hex)
    as [p [Hp [Hn [H Hlisted]]]].
  destruct (Hlisted eq_refl eq_refl) as (d & n & text & _ & _ & _ & _ & _ & Hd & _).
  vm_compute in Hp. injection Hp as <-.
  split; [apply H; reflexivity|]. split; [apply Hn; reflexivity | reflexivity].
Defined.

Lemma voltage_thresholds_default_witness :
  _search_file_by_contain (hwmon_path Spec.psu0) "vout1" "in" Spec.fs_no_crit Spec.psu0
  = (Ok (Some (Spec.hwmon5 ++ "/in0_label")), Spec.psu0)
  /\ exists_ Spec.fs_no_crit (Spec.hwmon5 ++ "/in0_crit") = false
  /\ exists_ Spec.fs_no_crit (Spec.hwmon5 ++ "/in0_lcrit") = false
  /\ get_voltage Spec.fs_no_crit Spec.psu0 = (Ok (literal "0.0"), Spec.psu0)
  /\ get_voltage_high_threshold Spec.fs_no_crit Spec.psu0 = (Ok (literal "12.6"), Spec.psu0)
  /\ get_voltage_low_threshold Spec.fs_no_crit Spec.psu0 = (Ok (literal "11.4"), Spec.psu0)
  /\ exists_ (Spec.sysfs [File "in0_label" "vout1"] [] "") (Spec.hwmon5 ++ "/in0_input") = false
  /\ get_voltage (Spec.sysfs [File "in0_label" "vout1"] [] "") Spec.psu0
     = (Raise ValueError, Spec.psu0).
Proof.
  assert (Hp : _search_file_by_contain (hwmon_path Spec.psu0) "vout1" "in"
                 Spec.fs_no_crit Spec.psu0
               = (Ok (Some (Spec.hwmon5 ++ "/in0_label")), Spec.psu0)) by reflexivity.
  assert (Hq : _search_file_by_contain (hwmon_path Spec.psu0) "vout1" "in"
                 (Spec.sysfs [File "in0_label" "vout1"] [] "") Spec.psu0
               = (Ok (Some (Spec.hwmon5 ++ "/in0_label")), Spec.psu0)) by reflexivity.
  destruct (voltage_thresholds_default Spec.fs_no_crit Spec.psu0 _ Hp)
    as [Hhigh [Hlow [_ Hcase]]].
  destruct (voltage_thresholds_default _ Spec.psu0 _ Hq) as [_ [_ [Hraise _]]].
  split; [exact Hp|].
  split; [reflexivity|]. split; [reflexivity|].
  split; [apply Hcase; reflexivity|].
  split; [apply Hhigh; reflexivity|].
  split; [apply Hlow; reflexivity|].
  split; [reflexivity | apply Hraise; reflexivity].
Defined.

Lemma defaults_when_nothing_located_witness :
  _search_file_by_contain (hwmon_path Spec.psu0) "vout1" "in" Spec.fs_no_sensor Spec.psu0
  = (Ok None, Spec.psu0)
  /\ get_voltage Spec.fs_no_sensor Spec.psu0 = (Ok (literal "0.0"), Spec.psu0)
  /\ get_temperature Spec.fs_no_sensor Spec.psu0 = (Ok None, Spec.psu0)
  /\ get_current Spec.fs_no_sensor Spec.psu0 = (Ok (literal "0.0"), Spec.psu0)
  /\ get_power Spec.fs_no_sensor Spec.psu0 = (Ok (literal "0.0"), Spec.psu0).
Proof.
  destruct (defaults_when_nothing_located Spec.fs_no_sensor Spec.psu0)
    as [Hv [Hc Hp]].
  split; [reflexivity|].
  split; [apply Hv; reflexivity|].
  split; [apply Hv; reflexivity|].
  split; [apply Hc; reflexivity | apply Hp; reflexivity].
Defined.

Lemma get_presence_reads_slot_file_witness :
  Spec.object_of 0 Spec.psu0
  /\ get_presence Spec.fs_present Spec.psu0 = (Ok true, Spec.psu0)
  /\ get_presence Spec.fs_no_status Spec.psu0 = (Ok false, Spec.psu0)
  /\ get_presence (Spec.sysfs [] [File "psuR_prs" "0"] "") Spec.psu0 = (Ok false, Spec.psu0).
Proof.
  assert (Hobj : Spec.object_of 0 Spec.psu0) by (apply Spec.object_new; reflexivity).
  split; [exact Hobj|].
  split; [|split].
  - apply (proj1 (get_presence_reads_slot_file 0 Spec.psu0 Spec.fs_present
                    (or_introl eq_refl) Hobj)).
    reflexivity.
  - apply (proj1 (proj2 (get_presence_reads_slot_file 0 Spec.psu0 Spec.fs_no_status
                           (or_introl eq_refl) Hobj))).
    reflexivity.
  - apply (proj2 (proj2 (get_presence_reads_slot_file 0 Spec.psu0 _
                           (or_introl eq_refl) Hobj))).
    reflexivity.
Defined.

Lemma get_name_by_index_witness :
  get_name Spec.fs_present Spec.psu0 = (Ok "PSU-R", Spec.psu0)
  /\ get_name Spec.fs_no_status Spec.psu1 = (Ok "PSU-L", Spec.psu1).
Proof.
  split.
  - apply (proj2 (get_name_by_index 0 (or_introl eq_refl)) Spec.psu0 Spec.fs_present).
    apply Spec.object_new. reflexivity.
  - apply (proj2 (get_name_by_index 1 (or_intror eq_refl)) Spec.psu1 Spec.fs_no_status).
    apply Spec.object_new. reflexivity.
Defined.

Lemma calls_keep_all_but_eeprom_witness :
  Spec.state_after Spec.get_voltage_ Spec.fs_voltage Spec.psu0 = Spec.psu0
  /\ _eeprom (Spec.state_after Spec.get_serial_ Spec.fs_eeprom Spec.psu0)
     = Some (Eeprom.new Spec.fs_eeprom "/sys/bus/i2c/devices/13-0053/eeprom"
               PSU_EEPROM_FORMAT PSU_EEPROM_START_OFFSET).
Proof.
  split.
  - apply (proj1 (calls_keep_all_but_eeprom Spec.get_voltage_ Spec.fs_voltage Spec.psu0));
      discriminate.
  - rewrite (proj1 (proj2 (calls_keep_all_but_eeprom
                             Spec.get_serial_ Spec.fs_eeprom Spec.psu0))
               (or_intror eq_refl)).
    reflexivity.
Defined.

Lemma get_powergood_status_is_get_status_witness :
  Spec.object_of 0 Spec.psu0
  /\ get_powergood_status Spec.fs_present Spec.psu0 = (Ok true, Spec.psu0)
  /\ get_status Spec.fs_present Spec.psu0 = (Ok true, Spec.psu0)
  /\ get_powergood_status Spec.fs_no_status Spec.psu0
     = get_status Spec.fs_no_status Spec.psu0.
Proof.
  assert (Hobj : Spec.object_of 0 Spec.psu0) by (apply Spec.object_new; reflexivity).
  split; [exact Hobj|].
  destruct (proj2 (get_powergood_status_is_get_status Spec.fs_present Spec.psu0) 0 Hobj)
    as [Hg Hs].
  split; [rewrite Hg; reflexivity|].
  split; [rewrite Hs; reflexivity|].
  apply (proj1 (get_powergood_status_is_get_status Spec.fs_no_status Spec.psu0)).
Defined.

(** * The rest of the class *)

(** ** Exceptions of the conversions *)

Section Conversions.

Lemma float_of_str_raises (s : string) (e : exn) :
  float_of_str s = Raise e -> e = ValueError.
Proof.
  unfold float_of_str.
  destruct (drop_underscores None (strip s)) as [t|]; [|congruence].
  destruct (sign_of t) as [neg body].
  destruct (parse_number body) as [[m e10]|]; [discriminate|].
  destruct (parse_inf_nan neg body); [discriminate | congruence].
Qed.

Lemma int_of_str_raises (s : string) (e : exn) :
  int_of_str s = Raise e -> e = ValueError.
Proof.
  unfold int_of_str.
  destruct (drop_underscores None (strip s)) as [t|]; [|congruence].
  destruct (sign_of t) as [neg body].
  destruct (digits_run 0 0 body) as [[v n] rest].
  destruct rest; [|congruence]. destruct (0 <? n); [discriminate | congruence].
Qed.

Lemma reading_raises (fs : FileSystem) (self : Psu) (p pre suf : string) (scale : Z)
  (e : exn) :
  fst (Spec.reading fs self p pre suf scale) = Raise e
  <-> e = ValueError
      /\ float_of_str (Common.read_txt_file fs (Spec.companion p pre suf)) = Raise ValueError.
Proof.
  unfold Spec.reading.
  destruct (float_of_str _) as [v|e'] eqn:Hf; cbn [fst].
  - split; [discriminate | intros [_ H]; discriminate].
  - pose proof (float_of_str_raises _ _ Hf) as ->.
    split; [intros [= <-]; now split | intros [-> _]; reflexivity].
Qed.

Lemma flag_raises (fs : FileSystem) (path : string) (e : exn) :
  Spec.flag fs path = Raise e
  <-> e = ValueError
      /\ Common.read_txt_file fs path <> ""
      /\ int_of_str (Common.read_txt_file fs path) = Raise ValueError.
Proof.
  unfold Spec.flag. destruct (Common.read_txt_file fs path) as [|c t].
  - cbn. split; [discriminate | intros (_ & H & _); congruence].
  - cbn [or_zero int]. destruct (int_of_str (String c t)) as [n|e'] eqn:Hi.
    + split; [discriminate | intros (_ & _ & H); discriminate].
    + pose proof (int_of_str_raises _ _ Hi) as ->.
      split; [intros [= <-] | intros (-> & _)]; repeat split; discriminate.
Qed.

Lemma locate_cases (fs : FileSystem) (d s pre : string) :
  Spec.locate fs d s pre = None \/ exists p, Spec.locate fs d s pre = Some p.
Proof. destruct (Spec.locate fs d s pre); eauto. Qed.

Lemma reading_some_scaled (fs : FileSystem) (self : Psu) (p pre suf : string) (n : Z) :
  int_of_str (Common.read_txt_file fs (Spec.companion p pre suf)) = Ok n ->
  exists v,
    match Spec.reading fs self p pre suf 1000 with
    | (Ok v, s) => (Ok (Some v), s)
    | (Raise e, s) => (Raise e, s)
    end = (Ok (Some v), self)
    /\ Spec.same_number v (Spec.scaled n 1000).
Proof.
  intros Hn. destruct (reading_scaled fs self p pre suf 1000 n thousand_finite Hn)
    as [v [Hv Hs]].
  exists v. now rewrite Hv.
Qed.

End Conversions.

(** ** The constructor *)



(** ** Readings of the other sensors *)

(** X2.  When some enumerated file has a name that starts with "cur"
    and a text that contains "iout1", [get_current] reads
    [curr{N}_input] next to the located file, N being the digits of
    its base name, and returns the integer it holds divided by 1000;
    when that file does not exist it raises [ValueError]. *)
Theorem get_current_scales_companion (fs : FileSystem) (self : Psu) :
  (exists f, In f (Spec.enumerate (walk fs (hwmon_path self)))
             /\ Spec.candidate fs "iout1" "cur" f = true) ->
  exists p,
    _search_file_by_contain (hwmon_path self) "iout1" "cur" fs self = (Ok (Some p), self)
    /\ (forall n,
           int_of_str
             (Common.read_txt_file fs
                (join (dirname p) ("curr" ++ filter_join isdigit (basename p) ++ "_input")))
           = Ok n ->
           exists v, get_current fs self = (Ok v, self)
                     /\ Spec.same_number v (Spec.scaled n 1000))
    /\ (exists_ fs (join (dirname p) ("curr" ++ filter_join isdigit (basename p) ++ "_input"))
        = false ->
        get_current fs self = (Raise ValueError, self)).
Proof.
  intros Hex. destruct (locate_some _ _ _ _ Hex) as [p Hp].
  exists p. rewrite search_is_locate, Hp. split; [reflexivity|].
  rewrite (get_current_located fs self p Hp). split.
  - intros n Hn. now apply reading_scaled; [apply thousand_finite|].
  - intros Ha. now apply reading_absent.
Qed.

Section Raising.

Ltac raise_cases Hun Hloc :=
  match goal with
  | |- context [_search_file_by_contain ?d ?s ?pre ?fs ?self] =>
      let Hn := fresh "Hn" in
      let p := fresh "p" in
      let Hp := fresh "Hp" in
      destruct (locate_cases fs d s pre) as [Hn | [p Hp]];
      [ rewrite (Hun fs self Hn); split; [discriminate|];
        let q := fresh "q" in
        let Hq := fresh "Hq" in
        intros [_ [q [Hq _]]]; rewrite search_is_locate, Hn in Hq; discriminate
      | rewrite (Hloc fs self p Hp), reading_raises;
        let He := fresh "He" in
        let Hf := fresh "Hf" in
        split; intros [He Hf]; (split; [exact He|]);
        [ exists p; rewrite search_is_locate, Hp; now split
        | let q := fresh "q" in
          let Hq := fresh "Hq" in
          destruct Hf as [q [Hq Hf]]; rewrite search_is_locate, Hp in Hq;
          injection Hq as <-; exact Hf ] ]
  end.

(** X3.  [get_voltage], [get_current] and [get_power] raise nothing
    but [ValueError], and raise it exactly when the label file is
    located and the text of the companion input file is text that
    [float] rejects (the empty text of a missing file included). *)
Theorem reading_getters_raise_on_bad_text_only (fs : FileSystem) (self : Psu) (e : exn) :
  (fst (get_voltage fs self) = Raise e
   <-> e = ValueError
       /\ exists p,
            _search_file_by_contain (hwmon_path self) "vout1" "in" fs self
            = (Ok (Some p), self)
            /\ float_of_str
                 (Common.read_txt_file fs
                    (join (dirname p) ("in" ++ filter_join isdigit (basename p) ++ "_input")))
               = Raise ValueError)
  /\ (fst (get_current fs self) = Raise e
      <-> e = ValueError
          /\ exists p,
               _search_file_by_contain (hwmon_path self) "iout1" "cur" fs self
               = (Ok (Some p), self)
               /\ float_of_str
                    (Common.read_txt_file fs
                       (join (dirname p)
                             ("curr" ++ filter_join isdigit (basename p) ++ "_input")))
                  = Raise ValueError)
  /\ (fst (get_power fs self) = Raise e
      <-> e = ValueError
          /\ exists p,
               _search_file_by_contain (hwmon_path self) "pout1" "power" fs self
               = (Ok (Some p), self)
               /\ float_of_str
                    (Common.read_txt_file fs
                       (join (dirname p)
                             ("power" ++ filter_join isdigit (basename p) ++ "_input")))
                  = Raise ValueError).
Proof.
  split; [|split].
  - raise_cases get_voltage_unlocated get_voltage_located.
  - raise_cases get_current_unlocated get_current_located.
  - raise_cases get_power_unlocated get_power_located.
Qed.

End Raising.

(** X4.  [get_temperature] uses the locator of [get_voltage]: it
    returns [None] exactly when no "vout1" label file is located, and
    then [get_voltage] returns 0.0 and the two voltage thresholds
    their defaults; with the label file located it reads
    [temp{N}_input] next to it, N being the digits of the base name of
    the label file, and returns the integer it holds divided by 1000,
    or raises [ValueError] when that file does not exist. *)
Theorem get_temperature_follows_voltage_label (fs : FileSystem) (self : Psu) :
  (get_temperature fs self = (Ok None, self)
   <-> _search_file_by_contain (hwmon_path self) "vout1" "in" fs self = (Ok None, self))
  /\ (get_temperature fs self = (Ok None, self) ->
      get_voltage fs self = (Ok (literal "0.0"), self)
      /\ get_voltage_high_threshold fs self = (Ok (literal "12.6"), self)
      /\ get_voltage_low_threshold fs self = (Ok (literal "11.4"), self)
      /\ get_temperature_high_threshold fs self = (Ok None, self))
  /\ (forall p,
         _search_file_by_contain (hwmon_path self) "vout1" "in" fs self
         = (Ok (Some p), self) ->
         (forall n,
             int_of_str
               (Common.read_txt_file fs
                  (join (dirname p) ("temp" ++ filter_join isdigit (basename p) ++ "_input")))
             = Ok n ->
             exists v, get_temperature fs self = (Ok (Some v), self)
                       /\ Spec.same_number v (Spec.scaled n 1000))
         /\ (exists_ fs (join (dirname p)
                              ("temp" ++ filter_join isdigit (basename p) ++ "_input"))
             = false ->
             get_temperature fs self = (Raise ValueError, self))).
Proof.
  rewrite search_is_locate.
  assert (Hiff : get_temperature fs self = (Ok None, self)
                 <-> (Ok (Spec.locate fs (hwmon_path self) "vout1" "in"), self)
                     = (Ok None, self)).
  { destruct (locate_cases fs (hwmon_path self) "vout1" "in") as [Hn | [p Hp]].
    - rewrite (get_temperature_unlocated fs self Hn), Hn. tauto.
    - rewrite (get_temperature_located fs self p Hp), Hp. unfold Spec.reading.
      destruct (float_of_str _); split; discriminate. }
  split; [exact Hiff|]. split.
  - intros Ht. apply Hiff in Ht. injection Ht as Hn.
    rewrite (get_voltage_unlocated fs self Hn),
      (get_voltage_high_threshold_unlocated fs self Hn),
      (get_voltage_low_threshold_unlocated fs self Hn),
      (get_temperature_high_threshold_unlocated fs self Hn).
    now repeat split.
  - intros p Hp. injection Hp as Hp.
    rewrite (get_temperature_located fs self p Hp). split.
    + intros n Hn. now apply reading_some_scaled.
    + intros Ha. now rewrite reading_absent.
Qed.

(** X5.  [get_temperature_high_threshold] returns [None] exactly when
    no "vout1" label file is located; with the label file located it
    reads [temp{N}_max] without testing that the file exists: it
    returns the integer the file holds divided by 1000, and raises
    [ValueError] when the file does not exist. *)
Theorem get_temperature_high_threshold_reads_unchecked (fs : FileSystem) (self : Psu) :
  (get_temperature_high_threshold fs self = (Ok None, self)
   <-> _search_file_by_contain (hwmon_path self) "vout1" "in" fs self = (Ok None, self))
  /\ (forall p,
         _search_file_by_contain (hwmon_path self) "vout1" "in" fs self
         = (Ok (Some p), self) ->
         (forall n,
             int_of_str
               (Common.read_txt_file fs
                  (join (dirname p) ("temp" ++ filter_join isdigit (basename p) ++ "_max")))
             = Ok n ->
             exists v, get_temperature_high_threshold fs self = (Ok (Some v), self)
                       /\ Spec.same_number v (Spec.scaled n 1000))
         /\ (exists_ fs (join (dirname p)
                              ("temp" ++ filter_join isdigit (basename p) ++ "_max"))
             = false ->
             get_temperature_high_threshold fs self = (Raise ValueError, self))).
Proof.
  rewrite search_is_locate. split.
  - destruct (locate_cases fs (hwmon_path self) "vout1" "in") as [Hn | [p Hp]].
    + rewrite (get_temperature_high_threshold_unlocated fs self Hn), Hn. tauto.
    + rewrite (get_temperature_high_threshold_located fs self p Hp), Hp.
      unfold Spec.reading. destruct (float_of_str _); split; discriminate.
  - intros p Hp. injection Hp as Hp.
    rewrite (get_temperature_high_threshold_located fs self p Hp). split.
    + intros n Hn. now apply reading_some_scaled.
    + intros Ha. now rewrite reading_absent.
Qed.

(** X6.  The two voltage thresholds return their defaults when no
    "vout1" label file is located; with the label file located and
    the threshold file present they return the integer it holds
    divided by 1000; they raise nothing but [ValueError], and raise it
    exactly when the threshold file is present with text that [float]
    rejects. *)
Theorem voltage_thresholds_read_existing_file (fs : FileSystem) (self : Psu) :
  (_search_file_by_contain (hwmon_path self) "vout1" "in" fs self = (Ok None, self) ->
   get_voltage_high_threshold fs self = (Ok (literal "12.6"), self)
   /\ get_voltage_low_threshold fs self = (Ok (literal "11.4"), self))
  /\ (forall p,
         _search_file_by_contain (hwmon_path self) "vout1" "in" fs self
         = (Ok (Some p), self) ->
         let crit := join (dirname p) ("in" ++ filter_join isdigit (basename p) ++ "_crit") in
         let lcrit := join (dirname p) ("in" ++ filter_join isdigit (basename p) ++ "_lcrit") in
         (forall n,
             exists_ fs crit = true ->
             int_of_str (Common.read_txt_file fs crit) = Ok n ->
             exists v, get_voltage_high_threshold fs self = (Ok v, self)
                       /\ Spec.same_number v (Spec.scaled n 1000))
         /\ (forall n,
                exists_ fs lcrit = true ->
                int_of_str (Common.read_txt_file fs lcrit) = Ok n ->
                exists v, get_voltage_low_threshold fs self = (Ok v, self)
                          /\ Spec.same_number v (Spec.scaled n 1000))
         /\ (forall e,
                fst (get_voltage_high_threshold fs self) = Raise e
                <-> e = ValueError /\ exists_ fs crit = true
                    /\ float_of_str (Common.read_txt_file fs crit) = Raise ValueError)
         /\ (forall e,
                fst (get_voltage_low_threshold fs self) = Raise e
                <-> e = ValueError /\ exists_ fs lcrit = true
                    /\ float_of_str (Common.read_txt_file fs lcrit) = Raise ValueError)).
Proof.
  rewrite search_is_locate. split.
  - intros H. injection H as Hn.
    now rewrite (get_voltage_high_threshold_unlocated fs self Hn),
      (get_voltage_low_threshold_unlocated fs self Hn).
  - intros p Hp. injection Hp as Hp. cbv zeta.
    rewrite (get_voltage_high_threshold_located fs self p Hp).
    rewrite (get_voltage_low_threshold_located fs self p Hp).
    unfold Spec.companion. split; [|split; [|split]].
    + intros n -> Hn. now apply reading_scaled; [apply thousand_finite|].
    + intros n -> Hn. now apply reading_scaled; [apply thousand_finite|].
    + intros e. destruct (exists_ fs _) eqn:He.
      * rewrite reading_raises. unfold Spec.companion. tauto.
      * split; [discriminate | intros (_ & H & _); discriminate].
    + intros e. destruct (exists_ fs _) eqn:He.
      * rewrite reading_raises. unfold Spec.companion. tauto.
      * split; [discriminate | intros (_ & H & _); discriminate].
Qed.

(** ** Status *)

(** X7.  On an object of either index, [get_status] returns [True]
    exactly when the text of the status file of the slot is text that
    [int] takes to 1; it returns [False] when the file does not exist
    and when the text is any other integer. *)
Theorem get_status_reads_slot_file (idx : Z) (self : Psu) (fs : FileSystem) :
  Spec.object_of idx self ->
  (get_status fs self = (Ok true, self)
   <-> int_of_str (Common.read_txt_file fs (Spec.status_file idx)) = Ok 1)
  /\ (exists_ fs (Spec.status_file idx) = false -> get_status fs self = (Ok false, self))
  /\ (forall n,
         int_of_str (Common.read_txt_file fs (Spec.status_file idx)) = Ok n ->
         n <> 1 -> get_status fs self = (Ok false, self)).
Proof.
  intros Hobj. rewrite (get_status_flag idx self Hobj fs).
  split; [|split].
  - rewrite <- flag_true. split; [intros H; now injection H | now intros ->].
  - intros Ha. now rewrite flag_absent.
  - intros n Hn Hne. unfold Spec.flag.
    destruct (Common.read_txt_file fs (Spec.status_file idx)) as [|c t];
      [discriminate|].
    cbn [or_zero int]. rewrite Hn. apply Z.eqb_neq in Hne. now rewrite Hne.
Qed.

(** X8.  On an object of either index, [get_presence] and
    [get_status] raise nothing but [ValueError], and raise it exactly
    when the file of the slot has a text that is not empty and that
    [int] rejects. *)
Theorem status_getters_raise_on_bad_text_only
  (idx : Z) (self : Psu) (fs : FileSystem) (e : exn) :
  Spec.object_of idx self ->
  (fst (get_presence fs self) = Raise e
   <-> e = ValueError
       /\ Common.read_txt_file fs (Spec.presence_file idx) <> ""
       /\ int_of_str (Common.read_txt_file fs (Spec.presence_file idx)) = Raise ValueError)
  /\ (fst (get_status fs self) = Raise e
      <-> e = ValueError
          /\ Common.read_txt_file fs (Spec.status_file idx) <> ""
          /\ int_of_str (Common.read_txt_file fs (Spec.status_file idx)) = Raise ValueError).
Proof.
  intros Hobj.
  rewrite (get_presence_flag idx self Hobj fs), (get_status_flag idx self Hobj fs).
  cbn [fst]. split; apply flag_raises.
Qed.

(** ** The object over a sequence of calls *)

(** X9.  [get_model] and [get_serial] overwrite [_eeprom]: after
    either, the object is what the call would have made of the object
    before any earlier call, both leave the same object, and each
    returns the field of the decoder that it has just stored. *)
Theorem eeprom_call_overwrites
  (m : Spec.method) (fs fs' : FileSystem) (self : Psu) :
  Spec.state_after Spec.get_model_ fs (Spec.state_after m fs' self)
  = Spec.state_after Spec.get_model_ fs self
  /\ Spec.state_after Spec.get_serial_ fs (Spec.state_after m fs' self)
     = Spec.state_after Spec.get_serial_ fs self
  /\ Spec.state_after Spec.get_model_ fs self = Spec.state_after Spec.get_serial_ fs self
  /\ exists d,
       _eeprom (Spec.state_after Spec.get_model_ fs self) = Some d
       /\ fst (get_model fs self) = Ok (model_str d)
       /\ fst (get_serial fs self) = Ok (serial_number d).
Proof.
  destruct (state_after_cases m fs' self) as [-> | ->];
    (split; [reflexivity|]); (split; [reflexivity|]); (split; [reflexivity|]);
    eexists; repeat split.
Qed.

(** X10.  An object is, after any sequence of calls, the object that
    the constructor returned, with [_eeprom] either still unset or
    holding a decoder built from the EEPROM path of the object, the
    fixed layout and the fixed offset. *)
Theorem object_states (idx : Z) (self : Psu) :
  Spec.object_of idx self ->
  exists new,
    __init__ idx = Ok new
    /\ (self = new
        \/ exists fs,
             self = set__eeprom new
                      (Eeprom.new fs (eeprom_addr new)
                         PSU_EEPROM_FORMAT PSU_EEPROM_START_OFFSET)).
Proof.
  induction 1 as [self Hinit | self m fs _ [new [Hinit IH]]].
  - exists self. auto.
  - exists new. split; [exact Hinit|].
    destruct (state_after_cases m fs self) as [-> | ->]; [exact IH|].
    right. exists fs. destruct IH as [-> | [fs0 ->]]; reflexivity.
Qed.

Lemma returns_ignore_eeprom (m : Spec.method) (fs : FileSystem) (a b : Psu) :
  Spec.same_but_eeprom a b -> Ext.return_of m fs a = Ext.return_of m fs b.
Proof.
  intros (Hfan & Hcom & Hidx & Hpres & Hoper & Hnum & Haddr & Hhw & Hee).
  destruct m; cbn [Ext.return_of].
  all: unfold Ext.returned, get_voltage, get_current, get_power, get_powergood_status,
    get_status, get_name, get_presence, get_model, get_serial, get_temperature,
    get_temperature_high_threshold, get_voltage_high_threshold,
    get_voltage_low_threshold, set_status_led, get_status_led,
    get_position_in_parent, is_replaceable, get_maximum_supplied_power,
    bind, attr, lift, ret, read_txt_file, os_path_exists, DeviceEEPROM_new,
    assign__eeprom.
  all: rewrite ?search_is_locate; cbn [fst snd set__eeprom _eeprom].
  all: rewrite ?Hcom, ?Hidx, ?Hpres, ?Hoper, ?Hhw, ?Hee.
  all: repeat match goal with
         | |- context [match ?x with _ => _ end] =>
             lazymatch x with
             | fst _ => fail
             | _ => destruct x; cbn [fst snd]
             end
         end.
  all: reflexivity.
Qed.

(** X11.  What a method returns, value or exception, does not depend
    on the calls made before it: on an object after any sequence of
    calls every method returns, on every file system, what it returns
    on the object as the constructor made it. *)
Theorem returns_ignore_history (idx : Z) (self : Psu) :
  Spec.object_of idx self ->
  exists new,
    __init__ idx = Ok new
    /\ forall m fs, Ext.return_of m fs self = Ext.return_of m fs new.
Proof.
  intros Hobj.
  destruct (object_identity idx self Hobj) as [[-> Hs] | [-> Hs]];
    [exists Spec.psu0 | exists Spec.psu1];
    (split; [reflexivity|]); intros m fs; now apply returns_ignore_eeprom.
Qed.

(** ** More on the locator *)

Section LocatorOrder.

Lemma find_in_first {A : Type} (f : A -> bool) (l : list A) (x : A) :
  In x l -> f x = true -> exists y, find f l = Some y /\ In y l /\ f y = true.
Proof.
  intros Hin Hx. destruct (find f l) as [y|] eqn:Hf.
  - exists y. apply find_some in Hf. tauto.
  - rewrite (find_none _ _ Hf x Hin) in Hx. discriminate.
Qed.

Lemma find_unique {A : Type} (f : A -> bool) (l : list A) (x : A) :
  In x l -> f x = true -> (forall y, In y l -> f y = true -> y = x) ->
  find f l = Some x.
Proof.
  intros Hin Hx Hu. destruct (find_in_first f l x Hin Hx) as [y [Hf [Hy Hfy]]].
  rewrite Hf. now rewrite (Hu y Hy Hfy).
Qed.

Lemma find_map_pair (fs : FileSystem) (search_str file_start d : string) (l : list string) :
  find (Spec.candidate fs search_str file_start) (map (pair d) l)
  = option_map (pair d)
      (find (fun x => Spec.candidate fs search_str file_start (d, x)) l).
Proof.
  induction l as [|x l IH]; [reflexivity|]. cbn [map find].
  destruct (Spec.candidate fs search_str file_start (d, x)); [reflexivity | exact IH].
Qed.

End LocatorOrder.

(** X12.  The locator searches the directory itself before its
    sub-directories: when a file listed in the directory itself is a
    candidate, the result is the first candidate among the files
    listed there, whatever the sub-directories hold and wherever they
    stand in the enumeration. *)
Theorem search_prefers_top_directory
  (fs : FileSystem) (self : Psu) (directory search_str file_start nm : string)
  (es : list entry) (n : string) :
  resolve fs directory = Some (Dir nm es) ->
  In n (filenames es) ->
  Spec.candidate fs search_str file_start (directory, n) = true ->
  exists n',
    _search_file_by_contain directory search_str file_start fs self
    = (Ok (Some (join directory n')), self)
    /\ In n' (filenames es)
    /\ find (fun x => Spec.candidate fs search_str file_start (directory, x)) (filenames es)
       = Some n'.
Proof.
  intros Hd Hn Hc. rewrite search_is_locate. unfold Spec.locate, walk. rewrite Hd.
  cbn [walk_entry Spec.enumerate flat_map fst snd]. rewrite find_app, find_map_pair.
  destruct (find_in_first (fun x => Spec.candidate fs search_str file_start (directory, x))
              (filenames es) n Hn Hc) as [n' [Hf [Hin _]]].
  rewrite Hf. exists n'. now repeat split.
Qed.

(** X13.  When exactly one enumerated file is a candidate, the locator
    returns that file in whatever order the files are enumerated: two
    file systems whose enumerations are permutations of each other
    and whose files read alike give the same result. *)
Theorem search_order_irrelevant_when_unique
  (fs fs' : FileSystem) (self : Psu) (d d' search_str file_start : string)
  (f : string * string) :
  Permutation (Spec.enumerate (walk fs d)) (Spec.enumerate (walk fs' d')) ->
  (forall g, In g (Spec.enumerate (walk fs d)) ->
             Common.read_txt_file fs' (Spec.path_of g)
             = Common.read_txt_file fs (Spec.path_of g)) ->
  In f (Spec.enumerate (walk fs d)) ->
  Spec.candidate fs search_str file_start f = true ->
  (forall g, In g (Spec.enumerate (walk fs d)) ->
             Spec.candidate fs search_str file_start g = true -> g = f) ->
  _search_file_by_contain d search_str file_start fs self
  = (Ok (Some (Spec.path_of f)), self)
  /\ _search_file_by_contain d' search_str file_start fs' self
     = (Ok (Some (Spec.path_of f)), self).
Proof.
  intros Hperm Hread Hin Hc Hu. rewrite !search_is_locate. unfold Spec.locate.
  assert (Hsame : forall g, In g (Spec.enumerate (walk fs d)) ->
            Spec.candidate fs' search_str file_start g
            = Spec.candidate fs search_str file_start g).
  { intros g Hg. unfold Spec.candidate. now rewrite (Hread g Hg). }
  rewrite (find_unique _ _ f Hin Hc Hu).
  rewrite (find_unique (Spec.candidate fs' search_str file_start) _ f).
  - now split.
  - exact (Permutation_in _ Hperm Hin).
  - now rewrite Hsame.
  - intros g Hg Hcg. apply (Permutation_in _ (Permutation_sym Hperm)) in Hg.
    apply Hu; [exact Hg|]. now rewrite <- Hsame.
Qed.

Lemma str_in_empty (t : string) : str_in "" t = true.
Proof. destruct t; reflexivity. Qed.

(** X14.  The empty label is contained in every text and the empty
    prefix starts every name: with an empty label the locator returns
    the first enumerated file whose name starts with the prefix, files
    that cannot be read included, and with both empty it returns the
    first enumerated file, [None] only when no file is enumerated. *)
Theorem search_with_empty_arguments
  (fs : FileSystem) (self : Psu) (directory file_start : string) :
  _search_file_by_contain directory "" file_start fs self
  = (Ok (option_map Spec.path_of
           (find (fun f => startswith (snd f) file_start)
                 (Spec.enumerate (walk fs directory)))),
     self)
  /\ _search_file_by_contain directory "" "" fs self
     = (Ok (option_map Spec.path_of (hd_error (Spec.enumerate (walk fs directory)))), self)
  /\ (_search_file_by_contain directory "" "" fs self = (Ok None, self)
      <-> Spec.enumerate (walk fs directory) = []).
Proof.
  rewrite !search_is_locate. unfold Spec.locate.
  assert (H1 : forall pre l,
             find (Spec.candidate fs "" pre) l
             = find (fun f => startswith (snd f) pre) l).
  { intros pre l. induction l as [|x l IH]; [reflexivity|]. cbn [find].
    unfold Spec.candidate at 1. now rewrite str_in_empty, andb_true_r, IH. }
  assert (H2 : forall l : list (string * string),
             find (fun f => startswith (snd f) "") l = hd_error l).
  { intros [|x l]; [reflexivity|]. cbn [find hd_error]. unfold startswith.
    now destruct (snd x). }
  rewrite !H1, H2. split; [reflexivity|]. split; [reflexivity|].
  destruct (Spec.enumerate (walk fs directory)); cbn; split; congruence.
Qed.

(** ** Where the located paths lie *)


Section Under.

Variable fs : FileSystem.
Hypothesis Hfs : well_formed_fs fs = true.



End Under.



(** ** The index of a sensor *)

Section Digits.

Lemma filter_join_app (f : ascii -> bool) (a b : string) :
  filter_join f (a ++ b) = filter_join f a ++ filter_join f b.
Proof.
  induction a as [|c a IH]; [reflexivity|].
  cbn [append filter_join]. destruct (f c); cbn [append]; now rewrite IH.
Qed.

Lemma filter_join_all (f : ascii -> bool) (s : string) :
  Ext.str_forall f s = true -> filter_join f s = s.
Proof.
  induction s as [|c s IH]; [reflexivity|].
  cbn [Ext.str_forall filter_join]. intros H. apply andb_true_iff in H.
  destruct H as [-> H]. now rewrite IH.
Qed.

Lemma filter_join_none (f : ascii -> bool) (s : string) :
  Ext.str_forall (fun c => negb (f c)) s = true -> filter_join f s = "".
Proof.
  induction s as [|c s IH]; [reflexivity|].
  cbn [Ext.str_forall filter_join]. intros H. apply andb_true_iff in H.
  destruct H as [Hc H]. apply negb_true_iff in Hc. rewrite Hc. now apply IH.
Qed.

Lemma decimal_isdigit (c : ascii) : is_decimal c = true -> isdigit c = true.
Proof. unfold is_decimal, isdigit. cbv zeta. now intros ->. Qed.

Lemma str_forall_impl (f g : ascii -> bool) (s : string) :
  (forall c, f c = true -> g c = true) -> Ext.str_forall f s = true -> Ext.str_forall g s = true.
Proof.
  intros Hfg. induction s as [|c s IH]; [reflexivity|].
  cbn [Ext.str_forall]. intros H. apply andb_true_iff in H. destruct H as [Hc H].
  now rewrite (Hfg c Hc), IH.
Qed.

(** The digits of a name made of a prefix without digits, a decimal
    index and a suffix without digits are the index. *)
Lemma digits_of_indexed_name (pre idx suf : string) :
  Ext.str_forall (fun c => negb (isdigit c)) pre = true ->
  Ext.str_forall is_decimal idx = true ->
  Ext.str_forall (fun c => negb (isdigit c)) suf = true ->
  filter_join isdigit (pre ++ idx ++ suf) = idx.
Proof.
  intros Hp Hi Hs. rewrite !filter_join_app.
  rewrite (filter_join_none _ _ Hp), (filter_join_none _ _ Hs).
  rewrite (filter_join_all isdigit idx (str_forall_impl _ _ _ decimal_isdigit Hi)).
  cbn [append]. apply app_empty_r.
Qed.

End Digits.


(** X16.  The index of the label file is carried to every file read
    with it: when the located label file is named [in{N}_label] for a
    decimal N, [get_voltage] reads [in{N}_input], [get_temperature]
    [temp{N}_input], [get_temperature_high_threshold] [temp{N}_max],
    and the voltage thresholds [in{N}_crit] and [in{N}_lcrit], all in
    the directory of the label file. *)
Theorem index_carries_to_companions
  (fs : FileSystem) (self : Psu) (p idx : string) :
  _search_file_by_contain (hwmon_path self) "vout1" "in" fs self = (Ok (Some p), self) ->
  basename p = "in" ++ idx ++ "_label" ->
  Ext.str_forall is_decimal idx = true ->
  let sibling name := join (dirname p) name in
  get_voltage fs self = Ext.read_scaled fs self (sibling ("in" ++ idx ++ "_input")) 1000
  /\ get_temperature fs self
     = Ext.optional (Ext.read_scaled fs self (sibling ("temp" ++ idx ++ "_input")) 1000)
  /\ get_temperature_high_threshold fs self
     = Ext.optional (Ext.read_scaled fs self (sibling ("temp" ++ idx ++ "_max")) 1000)
  /\ get_voltage_high_threshold fs self
     = (if exists_ fs (sibling ("in" ++ idx ++ "_crit"))
        then Ext.read_scaled fs self (sibling ("in" ++ idx ++ "_crit")) 1000
        else (Ok (literal "12.6"), self))
  /\ get_voltage_low_threshold fs self
     = (if exists_ fs (sibling ("in" ++ idx ++ "_lcrit"))
        then Ext.read_scaled fs self (sibling ("in" ++ idx ++ "_lcrit")) 1000
        else (Ok (literal "11.4"), self)).
Proof.
  rewrite search_is_locate. intros Hp Hb Hi. injection Hp as Hp. cbv zeta.
  rewrite (get_voltage_located fs self p Hp), (get_temperature_located fs self p Hp),
    (get_temperature_high_threshold_located fs self p Hp),
    (get_voltage_high_threshold_located fs self p Hp),
    (get_voltage_low_threshold_located fs self p Hp).
  unfold Spec.reading, Spec.companion, Ext.read_scaled, Ext.optional. rewrite Hb.
  rewrite (digits_of_indexed_name "in" idx "_label" eq_refl Hi eq_refl).
  repeat split.
Qed.


(** ** The two slots *)

Section Slots.





Variable fs : FileSystem.
Hypothesis Hfs : well_formed_fs fs = true.



End Slots.


(** ** The rest of the class on the sample states *)


Lemma get_current_scales_companion_witness :
  (exists f, In f (Spec.enumerate (walk Ext.fs_both (hwmon_path Spec.psu0)))
             /\ Spec.candidate Ext.fs_both "iout1" "cur" f = true)
  /\ (exists v, get_current Ext.fs_both Spec.psu0 = (Ok v, Spec.psu0)
                /\ Spec.same_number v (Spec.scaled 4500 1000))
  /\ get_current Ext.fs_both Spec.psu0 = (Ok (literal "4.5"), Spec.psu0).
Proof.
  assert (Hex : exists f,
             In f (Spec.enumerate (walk Ext.fs_both (hwmon_path Spec.psu0)))
             /\ Spec.candidate Ext.fs_both "iout1" "cur" f = true).
  { exists (Spec.hwmon5, "curr2_label"). split; [vm_compute; tauto | reflexivity]. }
  split; [exact Hex|].
  destruct (get_current_scales_companion Ext.fs_both Spec.psu0 Hex) as [p [Hp [Hn _]]].
  vm_compute in Hp. injection Hp as <-.
  split; [apply Hn; reflexivity | reflexivity].
Defined.

Lemma reading_getters_raise_on_bad_text_only_witness :
  fst (get_voltage Ext.fs_label_only Spec.psu0) = Raise ValueError
  /\ fst (get_voltage Ext.fs_both Spec.psu0) <> Raise ValueError.
Proof.
  split.
  - apply (proj1 (reading_getters_raise_on_bad_text_only
                    Ext.fs_label_only Spec.psu0 ValueError)).
    split; [reflexivity|]. exists (Spec.hwmon5 ++ "/in2_label"). now split.
  - intros H.
    apply (proj1 (reading_getters_raise_on_bad_text_only
                    Ext.fs_both Spec.psu0 ValueError)) in H.
    destruct H as [_ [p [Hp Hf]]]. vm_compute in Hp. injection Hp as <-.
    vm_compute in Hf. discriminate Hf.
Defined.

Lemma get_temperature_follows_voltage_label_witness :
  get_temperature Spec.fs_no_sensor Spec.psu0 = (Ok None, Spec.psu0)
  /\ get_voltage Spec.fs_no_sensor Spec.psu0 = (Ok (literal "0.0"), Spec.psu0)
  /\ (exists v, get_temperature Ext.fs_both Spec.psu0 = (Ok (Some v), Spec.psu0)
                /\ Spec.same_number v (Spec.scaled 31500 1000))
  /\ get_temperature Ext.fs_label_only Spec.psu0 = (Raise ValueError, Spec.psu0).
Proof.
  destruct (get_temperature_follows_voltage_label Spec.fs_no_sensor Spec.psu0)
    as [Hnone [Hdefaults _]].
  destruct (get_temperature_follows_voltage_label Ext.fs_both Spec.psu0)
    as [_ [_ Hboth]].
  destruct (get_temperature_follows_voltage_label Ext.fs_label_only Spec.psu0)
    as [_ [_ Honly]].
  assert (Ht : get_temperature Spec.fs_no_sensor Spec.psu0 = (Ok None, Spec.psu0))
    by (apply Hnone; reflexivity).
  split; [exact Ht|]. split; [exact (proj1 (Hdefaults Ht))|]. split.
  - apply (proj1 (Hboth (Spec.hwmon5 ++ "/in2_label") eq_refl)). reflexivity.
  - apply (proj2 (Honly (Spec.hwmon5 ++ "/in2_label") eq_refl)). reflexivity.
Defined.

Lemma get_temperature_high_threshold_reads_unchecked_witness :
  get_temperature_high_threshold Spec.fs_no_sensor Spec.psu0 = (Ok None, Spec.psu0)
  /\ (exists v,
         get_temperature_high_threshold Ext.fs_both Spec.psu0 = (Ok (Some v), Spec.psu0)
         /\ Spec.same_number v (Spec.scaled 85000 1000))
  /\ get_temperature_high_threshold Ext.fs_label_only Spec.psu0
     = (Raise ValueError, Spec.psu0).
Proof.
  split; [|split].
  - apply (proj1 (get_temperature_high_threshold_reads_unchecked
                    Spec.fs_no_sensor Spec.psu0)).
    reflexivity.
  - apply (proj1 (proj2 (get_temperature_high_threshold_reads_unchecked
                           Ext.fs_both Spec.psu0)
                    (Spec.hwmon5 ++ "/in2_label") eq_refl)).
    reflexivity.
  - apply (proj2 (proj2 (get_temperature_high_threshold_reads_unchecked
                           Ext.fs_label_only Spec.psu0)
                    (Spec.hwmon5 ++ "/in2_label") eq_refl)).
    reflexivity.
Defined.

Lemma voltage_thresholds_read_existing_file_witness :
  get_voltage_high_threshold Spec.fs_no_sensor Spec.psu0 = (Ok (literal "12.6"), Spec.psu0)
  /\ (exists v, get_voltage_high_threshold Ext.fs_both Spec.psu0 = (Ok v, Spec.psu0)
                /\ Spec.same_number v (Spec.scaled 13000 1000))
  /\ (exists v, get_voltage_low_threshold Ext.fs_both Spec.psu0 = (Ok v, Spec.psu0)
                /\ Spec.same_number v (Spec.scaled 11000 1000))
  /\ fst (get_voltage_high_threshold Ext.fs_bad_text Spec.psu0) = Raise ValueError.
Proof.
  destruct (voltage_thresholds_read_existing_file Spec.fs_no_sensor Spec.psu0)
    as [Hnone _].
  destruct (proj2 (voltage_thresholds_read_existing_file Ext.fs_both Spec.psu0)
              (Spec.hwmon5 ++ "/in2_label") eq_refl) as [Hhigh [Hlow _]].
  destruct (proj2 (voltage_thresholds_read_existing_file Ext.fs_bad_text Spec.psu0)
              (Spec.hwmon5 ++ "/in2_label") eq_refl) as [_ [_ [Hraise _]]].
  split; [exact (proj1 (Hnone eq_refl))|].
  split; [apply Hhigh; reflexivity|].
  split; [apply Hlow; reflexivity|].
  apply Hraise. now repeat split.
Defined.

Lemma get_status_reads_slot_file_witness :
  Spec.object_of 0 Spec.psu0 /\ Spec.object_of 1 Spec.psu1
  /\ get_status Ext.fs_both Spec.psu0 = (Ok true, Spec.psu0)
  /\ get_status Ext.fs_both Spec.psu1 = (Ok false, Spec.psu1)
  /\ get_status Spec.fs_no_status Spec.psu1 = (Ok false, Spec.psu1).
Proof.
  assert (H0 : Spec.object_of 0 Spec.psu0) by (apply Spec.object_new; reflexivity).
  assert (H1 : Spec.object_of 1 Spec.psu1) by (apply Spec.object_new; reflexivity).
  split; [exact H0|]. split; [exact H1|]. split; [|split].
  - apply (proj1 (get_status_reads_slot_file 0 Spec.psu0 Ext.fs_both H0)). reflexivity.
  - apply (proj2 (proj2 (get_status_reads_slot_file 1 Spec.psu1 Ext.fs_both H1)) 0);
      [reflexivity | discriminate].
  - apply (proj1 (proj2 (get_status_reads_slot_file 1 Spec.psu1 Spec.fs_no_status H1))).
    reflexivity.
Defined.

Lemma status_getters_raise_on_bad_text_only_witness :
  Spec.object_of 0 Spec.psu0
  /\ fst (get_presence Ext.fs_bad_text Spec.psu0) = Raise ValueError
  /\ fst (get_status Ext.fs_bad_text Spec.psu0) = Raise ValueError.
Proof.
  assert (H0 : Spec.object_of 0 Spec.psu0) by (apply Spec.object_new; reflexivity).
  destruct (status_getters_raise_on_bad_text_only 0 Spec.psu0 Ext.fs_bad_text ValueError H0)
    as [Hp Hs].
  split; [exact H0|]. split.
  - apply Hp. repeat split. discriminate.
  - apply Hs. repeat split. discriminate.
Defined.

Lemma object_states_witness :
  Spec.object_of 0 (Spec.state_after Spec.get_model_ Spec.fs_eeprom Spec.psu0)
  /\ exists new,
       __init__ 0 = Ok new
       /\ (Spec.state_after Spec.get_model_ Spec.fs_eeprom Spec.psu0 = new
           \/ exists fs,
                Spec.state_after Spec.get_model_ Spec.fs_eeprom Spec.psu0
                = set__eeprom new
                    (Eeprom.new fs (eeprom_addr new)
                       PSU_EEPROM_FORMAT PSU_EEPROM_START_OFFSET)).
Proof.
  assert (H : Spec.object_of 0
                (Spec.state_after Spec.get_model_ Spec.fs_eeprom Spec.psu0))
    by (apply Spec.object_call, Spec.object_new; reflexivity).
  split; [exact H | exact (object_states 0 _ H)].
Defined.

Lemma returns_ignore_history_witness :
  Spec.object_of 0 (Spec.state_after Spec.get_serial_ Spec.fs_eeprom Spec.psu0)
  /\ Ext.return_of Spec.get_voltage_ Ext.fs_both
       (Spec.state_after Spec.get_serial_ Spec.fs_eeprom Spec.psu0)
     = Ext.return_of Spec.get_voltage_ Ext.fs_both Spec.psu0.
Proof.
  assert (H : Spec.object_of 0
                (Spec.state_after Spec.get_serial_ Spec.fs_eeprom Spec.psu0))
    by (apply Spec.object_call, Spec.object_new; reflexivity).
  split; [exact H|].
  destruct (returns_ignore_history 0 _ H) as [new [Hinit Hret]].
  vm_compute in Hinit. injection Hinit as <-.
  exact (Hret Spec.get_voltage_ Ext.fs_both).
Defined.

Lemma search_prefers_top_directory_witness :
  resolve Ext.fs_nested Ext.hwmon0
  = Some (Dir "hwmon" [ Dir "hwmon5" [ File "in9_label" "vout1" ];
                        File "in1_label" "vout1" ])
  /\ _search_file_by_contain Ext.hwmon0 "vout1" "in" Ext.fs_nested Spec.psu0
     = (Ok (Some (Ext.hwmon0 ++ "/in1_label")), Spec.psu0).
Proof.
  assert (Hd : resolve Ext.fs_nested Ext.hwmon0
               = Some (Dir "hwmon" [ Dir "hwmon5" [ File "in9_label" "vout1" ];
                                     File "in1_label" "vout1" ])) by reflexivity.
  split; [exact Hd|].
  destruct (search_prefers_top_directory Ext.fs_nested Spec.psu0 Ext.hwmon0 "vout1" "in"
              _ _ "in1_label" Hd (or_introl eq_refl) eq_refl)
    as [n' [Hs [_ Hfind]]].
  vm_compute in Hfind. injection Hfind as <-. exact Hs.
Defined.

Lemma search_order_irrelevant_when_unique_witness :
  Permutation (Spec.enumerate (walk Ext.fs_both Ext.hwmon0))
              (Spec.enumerate (walk Ext.fs_reversed Ext.hwmon0))
  /\ Spec.enumerate (walk Ext.fs_both Ext.hwmon0)
     <> Spec.enumerate (walk Ext.fs_reversed Ext.hwmon0)
  /\ _search_file_by_contain Ext.hwmon0 "vout1" "in" Ext.fs_both Spec.psu0
     = (Ok (Some (Spec.hwmon5 ++ "/in2_label")), Spec.psu0)
  /\ _search_file_by_contain Ext.hwmon0 "vout1" "in" Ext.fs_reversed Spec.psu0
     = (Ok (Some (Spec.hwmon5 ++ "/in2_label")), Spec.psu0).
Proof.
  assert (Hperm : Permutation (Spec.enumerate (walk Ext.fs_both Ext.hwmon0))
                    (Spec.enumerate (walk Ext.fs_reversed Ext.hwmon0))).
  { change (Spec.enumerate (walk Ext.fs_reversed Ext.hwmon0))
      with (rev (Spec.enumerate (walk Ext.fs_both Ext.hwmon0))).
    apply Permutation_rev. }
  split; [exact Hperm|]. split; [discriminate|].
  apply (search_order_irrelevant_when_unique Ext.fs_both Ext.fs_reversed Spec.psu0
           Ext.hwmon0 Ext.hwmon0 "vout1" "in" (Spec.hwmon5, "in2_label") Hperm).
  - intros g Hg. vm_compute in Hg.
    repeat (destruct Hg as [<- | Hg]; [reflexivity|]). contradiction.
  - vm_compute. tauto.
  - reflexivity.
  - intros g Hg. vm_compute in Hg.
    repeat (destruct Hg as [<- | Hg];
            [first [reflexivity | intros Hc; vm_compute in Hc; discriminate Hc]|]).
    contradiction.
Defined.


Lemma index_carries_to_companions_witness :
  basename (Spec.hwmon5 ++ "/in2_label") = "in" ++ "2" ++ "_label"
  /\ get_voltage Ext.fs_both Spec.psu0
     = Ext.read_scaled Ext.fs_both Spec.psu0 (Spec.hwmon5 ++ "/in2_input") 1000
  /\ get_temperature Ext.fs_both Spec.psu0
     = Ext.optional
         (Ext.read_scaled Ext.fs_both Spec.psu0 (Spec.hwmon5 ++ "/temp2_input") 1000)
  /\ get_voltage Ext.fs_both Spec.psu0 = (Ok (literal "12.1"), Spec.psu0).
Proof.
  destruct (index_carries_to_companions Ext.fs_both Spec.psu0
              (Spec.hwmon5 ++ "/in2_label") "2" eq_refl eq_refl eq_refl)
    as [Hv [Ht _]].
  split; [reflexivity|]. split; [exact Hv|]. split; [exact Ht | reflexivity].
Defined.


Lemma search_with_empty_arguments_witness :
  _search_file_by_contain Ext.hwmon0 "" "temp" Ext.fs_both Spec.psu0
  = (Ok (Some (Spec.hwmon5 ++ "/temp2_input")), Spec.psu0)
  /\ _search_file_by_contain Ext.hwmon0 "" "" Ext.fs_both Spec.psu0
     = (Ok (Some (Spec.hwmon5 ++ "/in1_label")), Spec.psu0)
  /\ _search_file_by_contain (hwmon_path Spec.psu0) "" "" Spec.fs_present Spec.psu0
     = (Ok None, Spec.psu0).
Proof.
  split; [|split].
  - rewrite (proj1 (search_with_empty_arguments Ext.fs_both Spec.psu0 Ext.hwmon0 "temp")).
    reflexivity.
  - rewrite (proj1 (proj2 (search_with_empty_arguments Ext.fs_both Spec.psu0 Ext.hwmon0 ""))).
    reflexivity.
  - apply (proj2 (proj2 (search_with_empty_arguments
                           Spec.fs_present Spec.psu0 (hwmon_path Spec.psu0) ""))).
    reflexivity.
Defined.
